(** * tracerr: printing an error with its stack trace and source fragments

    A shallow embedding of [print.go] (package [tracerr]) and the properties
    of its four parts: the window computed from the variadic arguments
    ([calcRows]), the cache of source lines ([readLines]), the source block of
    one frame ([sourceRows]) and the report itself ([sprint] and the entry
    points [Sprint], [SprintSource], [SprintSourceColor]).

    Conventions of the embedding:
    - a Go [int] is a [Z] kept in the 64-bit two's-complement range; every
      [+], [-], [*], [/] and [i++] of the source is written with the wrapping
      operations of [Module GoInt];
    - a Go [string] is a [string] (a sequence of bytes);
    - the package variables ([DefaultLinesAfter], ...) are read on every call,
      so they are passed as a [Config];
    - the package variable [cache], the file system that [os.ReadFile] reads
      and the sequence of reads performed make up the [World] that the
      functions thread through;
    - the [for] loop of [sourceRows] counts with a wrapping [int], so it is
      run with fuel; a run that exhausts every amount of fuel does not
      return. *)

From Stdlib Require Import ZArith String Ascii DecimalString List Lia.
From stdpp Require Import gmap strings list fin_maps.

Open Scope Z_scope.

(** ** Go's [int] *)

Module GoInt.

Definition int_min : Z := - 2 ^ 63.
Definition int_max : Z := 2 ^ 63 - 1.

(** The value of [z] as a 64-bit two's-complement integer. *)
Definition wrap (z : Z) : Z := (z + 2 ^ 63) mod 2 ^ 64 - 2 ^ 63.

Definition add (a b : Z) : Z := wrap (a + b).
Definition sub (a b : Z) : Z := wrap (a - b).
Definition mul (a b : Z) : Z := wrap (a * b).
(** Go's [/] truncates toward zero. *)
Definition quot (a b : Z) : Z := wrap (Z.quot a b).

(** [z] is a value an [int] can hold. *)
Definition representable (z : Z) : Prop := int_min <= z <= int_max.

(** [len(s)] of a slice. *)
Definition len {A} (s : list A) : Z := Z.of_nat (length s).

(** [strconv.Itoa], which is also what [%d] prints. *)
Definition Itoa (z : Z) : string := NilZero.string_of_int (Z.to_int z).

End GoInt.

Import GoInt.

(** ** Strings *)

Definition newline : ascii := "010"%char.
Definition tab : ascii := "009"%char.
Definition nl : string := String newline EmptyString.
Definition tb : string := String tab EmptyString.

(** [strings.Split(s, "\n")]: the pieces of [s] between newlines, one more
    than the number of newlines, so that a final newline gives a final empty
    piece and the empty string gives one empty piece. *)
Fixpoint Split (s : string) : list string :=
  match s with
  | EmptyString => [EmptyString]
  | String c s' =>
      if Ascii.eqb c newline then EmptyString :: Split s'
      else match Split s' with
           | [] => [String c EmptyString]
           | piece :: pieces => String c piece :: pieces
           end
  end.

(** [strings.Join(rows, "\n")]. *)
Definition Join (rows : list string) : string := String.concat nl rows.

(** ** Configuration: the package variables *)

Record Config := {
  DefaultLinesAfter : Z;
  DefaultLinesBefore : Z;
  DefaultIgnoreFirstFrames : Z;
  DefaultMaxFrames : Z;
  DefaultIgnoreLastFrames : Z
}.

(** The values the package starts with. *)
Definition defaults : Config := {|
  DefaultLinesAfter := 2;
  DefaultLinesBefore := 3;
  DefaultIgnoreFirstFrames := 0;
  DefaultMaxFrames := 0;
  DefaultIgnoreLastFrames := 0
|}.

(** ** [calcRows] *)

Definition clamp (n : Z) : Z := if n <? 0 then 0 else n.

Definition calcRows (cfg : Config) (nums : list Z) : Z * Z * bool :=
  let '(before, after, withSource) :=
    match nums with
    | b :: a :: _ => (b, a, true)
    | [n] =>
        if 0 <? n then
          let after := quot (sub n 1) 2 in
          (sub (sub n after) 1, after, true)
        else (0, 0, false)
    | [] => (DefaultLinesBefore cfg, DefaultLinesAfter cfg, true)
    end in
  (clamp before, clamp after, withSource).

(** ** Frames and errors *)

(** Modelled from the spec: the type [Frame] is declared outside [print.go];
    the spec gives a frame a source file path, a 1-based line number and a
    stable display string (what [frame.String()] returns). *)
Record Frame := {
  Path : string;
  Line : Z;
  Display : string
}.

(** A non-nil [error] value: either a plain error, which only has a message,
    or one that implements the package's [Error] interface and so also has a
    stack trace. *)
Inductive error :=
  | PlainError (msg : string)
  | TracedError (msg : string) (trace : list Frame).

(** The colour decorators [red], [yellow], [black] and [bold], declared
    outside [print.go]: four functions from string to string. *)
Class Palette := {
  red : string -> string;
  yellow : string -> string;
  black : string -> string;
  bold : string -> string
}.

(** ** The world: the cache, the file system and the reads performed *)

Record World := {
  cache : gmap string (list string);
  (** what [os.ReadFile] gives for a path: [None] when the read fails *)
  fs : string -> option string;
  (** the paths [os.ReadFile] was called with, oldest first *)
  reads : list string
}.

Definition empty_world (files : string -> option string) : World :=
  {| cache := ∅; fs := files; reads := [] |}.

(** ** Outcomes *)

Inductive outcome (A : Type) :=
  | Ret (a : A)
  | Panic (msg : string)
  | OutOfFuel.
Arguments Ret {A} a.
Arguments Panic {A} msg.
Arguments OutOfFuel {A}.

#[export] Instance outcome_ret : MRet outcome := fun A a => Ret a.
#[export] Instance outcome_bind : MBind outcome := fun A B k m =>
  match m with
  | Ret a => k a
  | Panic msg => Panic msg
  | OutOfFuel => OutOfFuel
  end.

(** ** [readLines] *)

(** One call, run from its beginning to its end with no other call in
    between; the lookup is the section under the read lock, the insertion the
    section under the write lock. *)
Definition readLines (path : string) (w : World)
  : (list string + string) * World :=
  match cache w !! path with
  | Some lines => (inl lines, w)
  | None =>
      let reads' := reads w ++ [path] in
      match fs w path with
      | None =>
          (inr ("tracerr: file " +:+ path +:+ " not found"),
           {| cache := cache w; fs := fs w; reads := reads' |})
      | Some b =>
          let lines := Split b in
          (inl lines,
           {| cache := <[path := lines]> (cache w); fs := fs w;
              reads := reads' |})
      end
  end.

(** ** [sourceRows] *)

Section Rendering.

Context `{Palette}.

(** The body of the loop [for i := start; i <= end; i++] of [sourceRows],
    from the value [i] of the counter on. *)
Fixpoint sourceLoop (fuel : nat) (lines : list string) (frame : Frame)
    (colorized : bool) (end_ : Z) (i : Z) (rows : list string)
  : outcome (list string) :=
  match fuel with
  | O => OutOfFuel
  | S fuel' =>
      if i <=? end_ then
        if (i <? 0) || (len lines <=? i) then
          sourceLoop fuel' lines frame colorized end_ (add i 1) rows
        else
          match lines !! Z.to_nat i with
          | None => Panic "index out of range"
          | Some line =>
              let message :=
                if i =? sub (Line frame) 1 then
                  let message := Itoa (add i 1) +:+ tb +:+ line in
                  if colorized then red message else message
                else if colorized then
                  black (Itoa (add i 1)) +:+ tb +:+ line
                else Itoa (add i 1) +:+ tb +:+ line in
              sourceLoop fuel' lines frame colorized end_ (add i 1)
                (rows ++ [message])
          end
      else Ret rows
  end.

Definition sourceRows (fuel : nat) (rows : list string) (frame : Frame)
    (before after : Z) (colorized : bool) (w : World)
  : outcome (list string * World) :=
  let '(r, w) := readLines (Path frame) w in
  match r with
  | inr err =>
      let message := err in
      let message := if colorized then yellow message else message in
      Ret (rows ++ [message; ""], w)
  | inl lines =>
      if len lines <? Line frame then
        let message :=
          "tracerr: too few lines, got " +:+ Itoa (len lines) +:+
          ", want " +:+ Itoa (Line frame) in
        let message := if colorized then yellow message else message in
        Ret (rows ++ [message; ""], w)
      else
        let current := sub (Line frame) 1 in
        let start := sub current before in
        let end_ := add current after in
        rows ← sourceLoop fuel lines frame colorized end_ start rows;
        Ret (rows ++ [""], w)
  end.

(** ** [sprint] *)

(** The loop [for _, frame := range frames] of [sprint], over the frames that
    remain, with the counters [i] and [appendedFrames] as they stand;
    [total] is [len(frames)] of the whole trace. *)
Fixpoint frameLoop (fuel : nat) (cfg : Config) (total before after : Z)
    (withSource colorized : bool) (frames : list Frame)
    (i appendedFrames : Z) (rows : list string) (w : World)
  : outcome (list string * World) :=
  match frames with
  | [] => Ret (rows, w)
  | frame :: frames' =>
      let i := add i 1 in
      if i <=? DefaultIgnoreFirstFrames cfg then
        frameLoop fuel cfg total before after withSource colorized frames'
          i appendedFrames rows w
      else
        let message := Display frame in
        let message := if colorized then bold message else message in
        let rows := rows ++ [message] in
        '(rows, w) ←
          (if withSource
           then sourceRows fuel rows frame before after colorized w
           else Ret (rows, w));
        let appendedFrames := add appendedFrames 1 in
        if (0 <? DefaultMaxFrames cfg)
           && (DefaultMaxFrames cfg <=? appendedFrames) then Ret (rows, w)
        else if (0 <? DefaultIgnoreLastFrames cfg)
           && (total <=? add i (DefaultIgnoreLastFrames cfg)) then Ret (rows, w)
        else
          frameLoop fuel cfg total before after withSource colorized frames'
            i appendedFrames rows w
  end.

(** [err] is [None] for the nil error. [make] panics on a negative
    capacity. On a capacity that the allocator cannot serve it panics too,
    or the process runs out of memory; which capacities those are depends
    on the platform and is not modelled, memory being unbounded here: a run
    that gets past [make] stands for a run of the code whose allocation
    succeeded. *)
Definition sprint (fuel : nat) (cfg : Config) (err : option error)
    (nums : list Z) (colorized : bool) (w : World)
  : outcome (string * World) :=
  match err with
  | None => Ret ("", w)
  | Some (PlainError msg) => Ret (msg, w)
  | Some (TracedError msg frames) =>
      let '(before, after, withSource) := calcRows cfg nums in
      let expectedRows :=
        if withSource
        then add (mul (add (add before after) 3) (len frames)) 2
        else add (len frames) 1 in
      if expectedRows <? 0 then Panic "makeslice: cap out of range"
      else
        let rows := [msg] in
        let rows := if withSource then rows ++ [""] else rows in
        '(rows, w) ←
          frameLoop fuel cfg (len frames) before after withSource colorized
            frames 0 0 rows w;
        Ret (Join rows, w)
  end.

Definition Sprint (fuel : nat) (cfg : Config) (err : option error) (w : World)
  : outcome (string * World) :=
  sprint fuel cfg err [0] false w.

Definition SprintSource (fuel : nat) (cfg : Config) (err : option error)
    (nums : list Z) (w : World) : outcome (string * World) :=
  sprint fuel cfg err nums false w.

Definition SprintSourceColor (fuel : nat) (cfg : Config) (err : option error)
    (nums : list Z) (w : World) : outcome (string * World) :=
  sprint fuel cfg err nums true w.

End Rendering.

(** ** [readLines] step by step, for calls that interleave *)

(** Where a call of [readLines] stands: before its lookup, before its read
    of the file (the lookup missed), before its insertion into the cache
    (with the lines it read), or returned. *)
Inductive phase :=
  | AtLookup
  | AtRead
  | AtStore (lines : list string)
  | Returned (r : list string + string).

(** One step of a call on [path]. The lookup and the insertion are each one
    step: the lock makes them atomic. *)
Definition step (path : string) (ph : phase) (w : World) : phase * World :=
  match ph with
  | AtLookup =>
      match cache w !! path with
      | Some lines => (Returned (inl lines), w)
      | None => (AtRead, w)
      end
  | AtRead =>
      let w' := {| cache := cache w; fs := fs w; reads := reads w ++ [path] |} in
      match fs w path with
      | None => (Returned (inr ("tracerr: file " +:+ path +:+ " not found")), w')
      | Some b => (AtStore (Split b), w')
      end
  | AtStore lines =>
      (Returned (inl lines),
       {| cache := <[path := lines]> (cache w); fs := fs w; reads := reads w |})
  | Returned r => (Returned r, w)
  end.

(** The calls in flight, all on the one [path], and the world they share;
    the call of index [t] takes a step. *)
Definition sched_step (path : string) (st : list phase * World) (t : nat)
  : list phase * World :=
  match st.1 !! t with
  | None => st
  | Some ph => let '(ph', w') := step path ph st.2 in (<[t := ph']> st.1, w')
  end.

(** A schedule is the sequence of the indexes of the calls that step. *)
Definition run (path : string) (schedule : list nat)
    (st : list phase * World) : list phase * World :=
  fold_left (sched_step path) schedule st.

(** How far a call is. *)
Definition rank (ph : phase) : nat :=
  match ph with
  | AtLookup => 0
  | AtRead => 1
  | AtStore _ => 2
  | Returned _ => 3
  end.

(** What the calls and the world can be while the file of [path] holds
    [b]: the cache has either nothing for [path] or the lines of [b], and a
    call that has read or returned holds the lines of [b]. *)
Definition good (b : string) (ph : phase) : Prop :=
  ph = AtLookup \/ ph = AtRead \/ ph = AtStore (Split b)
  \/ ph = Returned (inl (Split b)).

Definition consistent (path b : string) (st : list phase * World) : Prop :=
  fs st.2 path = Some b
  /\ (cache st.2 !! path = None \/ cache st.2 !! path = Some (Split b))
  /\ Forall (good b) st.1.

(** ** Concrete instances used in the examples *)

(** Modelled from the spec: the decorators are declared outside [print.go];
    the spec calls them ANSI colour-wrapping helpers, so this instance wraps
    its argument between the escape sequence of a colour and the reset
    sequence. *)
Definition ansi_wrap (code : string) (s : string) : string :=
  String "027"%char ("[" +:+ code +:+ "m") +:+ s +:+ String "027"%char "[0m".

Definition ansi : Palette := {|
  red := ansi_wrap "31";
  yellow := ansi_wrap "33";
  black := ansi_wrap "30";
  bold := ansi_wrap "1"
|}.

Definition with_fs (files : string -> option string) (w : World) : World :=
  {| cache := cache w; fs := files; reads := reads w |}.

(** A file system with the single file [a.go], of ten lines. *)
Definition a_go : string :=
  "l1" +:+ nl +:+ "l2" +:+ nl +:+ "l3" +:+ nl +:+ "l4" +:+ nl +:+ "l5" +:+ nl
  +:+ "l6" +:+ nl +:+ "l7" +:+ nl +:+ "l8" +:+ nl +:+ "l9" +:+ nl +:+ "l10".

Definition one_file (path : string) : option string :=
  if String.eqb path "a.go" then Some a_go else None.

Definition frame_a (line : Z) : Frame :=
  {| Path := "a.go"; Line := line;
     Display := "main.foo (a.go:" +:+ Itoa line +:+ ")" |}.

Definition frame_missing : Frame :=
  {| Path := "gone.go"; Line := 1; Display := "main.bar (gone.go:1)" |}.

(** ** The source block of a frame, as the specification describes it *)

Section Window.

Context `{Palette}.

(** The row of the line of index [i] (from 0) of [lines], in the block of a
    frame whose traced line has index [current]: the line number [i+1], a
    tab and the text of the line; when colorized, the whole row of the traced
    line is wrapped by [red], and the number alone of any other line by
    [black]. *)
Definition windowRow (colorized : bool) (current : Z) (lines : list string)
    (i : Z) : string :=
  let line := default "" (lines !! Z.to_nat i) in
  if colorized then
    if i =? current then red (Itoa (i + 1) +:+ tb +:+ line)
    else black (Itoa (i + 1)) +:+ tb +:+ line
  else Itoa (i + 1) +:+ tb +:+ line.

(** The indexes from [start] to [end_] inclusive that lie in [[0, L)], in
    increasing order. *)
Definition windowIndexes (start end_ L : Z) : list Z :=
  filter (fun i => 0 <= i < L) (seqZ start (end_ - start + 1)).

Definition windowRows (colorized : bool) (current start end_ : Z)
    (lines : list string) : list string :=
  windowRow colorized current lines <$> windowIndexes start end_ (len lines).

End Window.

(** The message of the too-few-lines branch. *)
Definition tooFewLines (got want : Z) : string :=
  "tracerr: too few lines, got " +:+ Itoa got +:+ ", want " +:+ Itoa want.

(** ** The selection of frames, as the specification describes it *)

(** The frames with their positions, counted from [first]. *)
Definition positioned (first : Z) (frames : list Frame) : list (Z * Frame) :=
  zip (seqZ first (len frames)) frames.

(** The frames the loop does not skip: those at a position above
    [DefaultIgnoreFirstFrames]. *)
Definition notIgnored (cfg : Config) (pfs : list (Z * Frame))
  : list (Z * Frame) :=
  filter (fun pf => DefaultIgnoreFirstFrames cfg < pf.1) pfs.

(** Whether the iteration stops after the frame at position [p], the
    [rendered]-th frame rendered: [DefaultMaxFrames] is set and reached, or
    [DefaultIgnoreLastFrames] is set and [p + DefaultIgnoreLastFrames], as an
    [int], reaches the number of frames. *)
Definition stopsAfter (cfg : Config) (total : Z) (rendered p : Z) : bool :=
  (0 <? DefaultMaxFrames cfg) && (DefaultMaxFrames cfg <=? rendered)
  || (0 <? DefaultIgnoreLastFrames cfg)
     && (total <=? add p (DefaultIgnoreLastFrames cfg)).

(** The frames of [pfs], in order, up to and including the first one after
    which the iteration stops; [rendered] frames were rendered before. *)
Fixpoint takeThrough (stop : Z -> Z -> bool) (rendered : Z)
    (pfs : list (Z * Frame)) : list (Z * Frame) :=
  match pfs with
  | [] => []
  | pf :: pfs' =>
      if stop (rendered + 1) pf.1 then [pf]
      else pf :: takeThrough stop (rendered + 1) pfs'
  end.

Definition selectPositioned (cfg : Config) (frames : list Frame)
  : list (Z * Frame) :=
  takeThrough (stopsAfter cfg (len frames)) 0
    (notIgnored cfg (positioned 1 frames)).

Definition selectFrames (cfg : Config) (frames : list Frame) : list Frame :=
  snd <$> selectPositioned cfg frames.

Section RenderFrames.

Context `{Palette}.

(** Rendering the given frames one after the other: the header of each and,
    with source, its source block. *)
Fixpoint renderFrames (fuel : nat) (before after : Z)
    (withSource colorized : bool) (frames : list Frame)
    (rows : list string) (w : World) : outcome (list string * World) :=
  match frames with
  | [] => Ret (rows, w)
  | frame :: frames' =>
      let header :=
        if colorized then bold (Display frame) else Display frame in
      '(rows, w) ←
        (if withSource
         then sourceRows fuel (rows ++ [header]) frame before after colorized w
         else Ret (rows ++ [header], w));
      renderFrames fuel before after withSource colorized frames' rows w
  end.

End RenderFrames.

Definition three_frames : list Frame :=
  [ {| Path := "a.go"; Line := 5; Display := "main.one (a.go:5)" |};
    {| Path := "a.go"; Line := 7; Display := "main.two (a.go:7)" |};
    {| Path := "a.go"; Line := 9; Display := "main.three (a.go:9)" |} ].

(** The defaults, but with the first frame ignored. *)
Definition ignore_first_one : Config := {|
  DefaultLinesAfter := 2;
  DefaultLinesBefore := 3;
  DefaultIgnoreFirstFrames := 1;
  DefaultMaxFrames := 0;
  DefaultIgnoreLastFrames := 0
|}.

(** The rows of a run that returns. *)
Definition rowsOf (r : outcome (list string * World)) : option (list string) :=
  match r with
  | Ret (rows, _) => Some rows
  | _ => None
  end.

(** ** What a run does to the world, and when it panics *)

(** [w'] comes from [w] by reads of files among [paths] that [w] had not
    cached: the file system is the same, every entry of the cache of [w] is
    still there, and the reads added are of such paths. *)
Definition grows (paths : list string) (w w' : World) : Prop :=
  fs w' = fs w
  /\ cache w ⊆ cache w'
  /\ exists extra,
       reads w' = reads w ++ extra
       /\ Forall (fun p => p ∈ paths /\ cache w !! p = None) extra.

(** The paths of the frames of an error. *)
Definition tracePaths (err : option error) : list string :=
  match err with
  | Some (TracedError _ frames) => Path <$> frames
  | _ => []
  end.

Definition panics {A} (o : outcome A) : bool :=
  match o with
  | Panic _ => true
  | _ => false
  end.

(** The capacity that [sprint] asks [make] for. *)
Definition expectedRows (cfg : Config) (nums : list Z) (frames : list Frame)
  : Z :=
  let '(before, after, withSource) := calcRows cfg nums in
  if withSource then add (mul (add (add before after) 3) (len frames)) 2
  else add (len frames) 1.

(** ** Decorators that do nothing *)

(** The palette whose four decorators return their argument. *)
Definition plain : Palette := {|
  red := fun s => s;
  yellow := fun s => s;
  black := fun s => s;
  bold := fun s => s
|}.

(** No decorator changes a row: the output is not colorized, or each
    decorator returns its argument. *)
Definition undecorated (P : Palette) (colorized : bool) : Prop :=
  colorized = false
  \/ (forall s, @red P s = s /\ @yellow P s = s /\ @black P s = s
              /\ @bold P s = s).

(** ** The selection of frames in closed form *)

(** How many leading frames are skipped (when the trace has that many). *)
Definition skipped (cfg : Config) : Z :=
  Z.max 0 (DefaultIgnoreFirstFrames cfg).

(** How many of the frames that follow are rendered (when that many follow),
    for a trace of [total] frames: at most [DefaultMaxFrames] when it is set;
    when [DefaultIgnoreLastFrames] is set, those up to the position
    [total - DefaultIgnoreLastFrames], but one at least. *)
Definition kept (cfg : Config) (total : Z) : Z :=
  Z.min
    (if 0 <? DefaultMaxFrames cfg then DefaultMaxFrames cfg else total)
    (if 0 <? DefaultIgnoreLastFrames cfg
     then Z.max 1 (total - DefaultIgnoreLastFrames cfg - skipped cfg)
     else total).

(** ** The report as a function of the files *)

(** The cache holds nothing but the lines of files as they are. *)
Definition coherent (w : World) : Prop :=
  forall path lines,
    cache w !! path = Some lines ->
    exists b, fs w path = Some b /\ lines = Split b.

Section Report.

Context `{Palette}.

(** The rows that follow the header of a frame: a message and a blank row
    when the file cannot be read or is too short, else the window and a
    blank row. *)
Definition sourceBlock (files : string -> option string) (colorized : bool)
    (before after : Z) (frame : Frame) : list string :=
  match files (Path frame) with
  | None =>
      [(if colorized then yellow else id)
         ("tracerr: file " +:+ Path frame +:+ " not found"); ""]
  | Some b =>
      if len (Split b) <? Line frame then
        [(if colorized then yellow else id)
           (tooFewLines (len (Split b)) (Line frame)); ""]
      else
        windowRows colorized (sub (Line frame) 1)
          (sub (sub (Line frame) 1) before) (add (sub (Line frame) 1) after)
          (Split b)
        ++ [""]
  end.

Definition frameBlock (files : string -> option string)
    (withSource colorized : bool) (before after : Z) (frame : Frame)
  : list string :=
  (if colorized then bold (Display frame) else Display frame)
  :: (if withSource then sourceBlock files colorized before after frame
      else []).

(** All the rows of the report of an error with message [msg] and trace
    [frames]. *)
Definition reportRows (files : string -> option string) (cfg : Config)
    (nums : list Z) (colorized : bool) (msg : string) (frames : list Frame)
  : list string :=
  let '(before, after, withSource) := calcRows cfg nums in
  (msg :: (if withSource then [""] else []))
  ++ concat (frameBlock files withSource colorized before after
             <$> selectFrames cfg frames).

End Report.

(** The loop of [sourceRows] ends for [frame] within [fuel]: when the file
    is there and long enough, it has no more lines than an [int] can count,
    the end of the window is below the largest [int], and the window is
    shorter than [fuel]. *)
Definition windowFits (fuel : nat) (files : string -> option string)
    (before after : Z) (frame : Frame) : Prop :=
  match files (Path frame) with
  | None => True
  | Some b =>
      Line frame <= len (Split b) ->
      len (Split b) <= int_max
      /\ add (sub (Line frame) 1) after < int_max
      /\ (Z.to_nat (add (sub (Line frame) 1) after
                    - sub (sub (Line frame) 1) before + 1) < fuel)%nat
  end.

(** ** Counting characters *)

(** How many times the character [c] occurs in [s]. *)
Fixpoint occurrences (c : ascii) (s : string) : nat :=
  match s with
  | EmptyString => 0
  | String c' s' =>
      if Ascii.eqb c' c then S (occurrences c s') else occurrences c s'
  end.

(** ** [Print], [PrintSource] and [PrintSourceColor] *)

(** [fmt.Println(s)] on a standard output that holds [out] so far. *)
Definition Println (s : string) (out : string) : string := out +:+ s +:+ nl.

Section Printing.

Context `{Palette}.

Definition Print (fuel : nat) (cfg : Config) (err : option error)
    (w : World) (out : string) : outcome (string * World) :=
  '(s, w) ← Sprint fuel cfg err w;
  Ret (Println s out, w).

Definition PrintSource (fuel : nat) (cfg : Config) (err : option error)
    (nums : list Z) (w : World) (out : string) : outcome (string * World) :=
  '(s, w) ← SprintSource fuel cfg err nums w;
  Ret (Println s out, w).

Definition PrintSourceColor (fuel : nat) (cfg : Config) (err : option error)
    (nums : list Z) (w : World) (out : string) : outcome (string * World) :=
  '(s, w) ← SprintSourceColor fuel cfg err nums w;
  Ret (Println s out, w).

End Printing.

(** ** Changing the world of an outcome *)

Definition withWorld {A} (f : World -> World) (o : outcome (A * World))
  : outcome (A * World) :=
  match o with
  | Ret (a, w) => Ret (a, f w)
  | Panic msg => Panic msg
  | OutOfFuel => OutOfFuel
  end.

(** * Properties *)

(** ** Arithmetic of [int] *)

Lemma wrap_representable z : representable z -> wrap z = z.
Proof.
  unfold representable, wrap, int_min, int_max. intros Hz.
  rewrite Z.mod_small; lia.
Qed.

Lemma representable_wrap z : representable (wrap z).
Proof.
  unfold representable, wrap, int_min, int_max.
  pose proof (Z.mod_pos_bound (z + 2 ^ 63) (2 ^ 64) ltac:(lia)). lia.
Qed.

Lemma add_representable a b : representable (a + b) -> add a b = a + b.
Proof. apply wrap_representable. Qed.

Lemma sub_representable a b : representable (a - b) -> sub a b = a - b.
Proof. apply wrap_representable. Qed.

Lemma clamp_max n : clamp n = Z.max n 0.
Proof. unfold clamp. destruct (Z.ltb_spec n 0); lia. Qed.

(** ** [calcRows] *)

Example calcRows_none : calcRows defaults [] = (3, 2, true).
Proof. reflexivity. Qed.
Example calcRows_3 : calcRows defaults [3] = (1, 1, true).
Proof. reflexivity. Qed.
Example calcRows_6 : calcRows defaults [6] = (3, 2, true).
Proof. reflexivity. Qed.
Example calcRows_neg : calcRows defaults [-4] = (0, 0, false).
Proof. reflexivity. Qed.
Example calcRows_two : calcRows defaults [-1; 7; 9] = (0, 7, true).
Proof. reflexivity. Qed.

(** C3. For a single argument [n] that an [int] can hold: when [n > 0],
    [calcRows] returns [after = (n-1)/2] rounded down, [before = n - after - 1]
    and [withSource = true], so that [before + after + 1 = n] and the extra
    line of an even [n] goes to [before]; when [n <= 0], it returns
    [before = after = 0] and [withSource = false]. *)
Theorem calcRows_single (cfg : Config) (n : Z) :
  representable n ->
  (0 < n ->
     calcRows cfg [n] = (n - (n - 1) / 2 - 1, (n - 1) / 2, true)
     /\ (n - (n - 1) / 2 - 1) + (n - 1) / 2 + 1 = n
     /\ (Z.even n = true -> n - (n - 1) / 2 - 1 = (n - 1) / 2 + 1)
     /\ (Z.odd n = true -> n - (n - 1) / 2 - 1 = (n - 1) / 2))
  /\ (n <= 0 -> calcRows cfg [n] = (0, 0, false)).
Proof.
  intros [Hlo Hhi]. unfold int_min, int_max in *. split.
  - intros Hn. unfold calcRows.
    destruct (Z.ltb_spec 0 n) as [_|]; [|lia].
    assert (Hq : quot (sub n 1) 2 = (n - 1) / 2).
    { unfold quot. rewrite sub_representable by (unfold representable, int_min, int_max; lia).
      rewrite Z.quot_div_nonneg by lia.
      apply wrap_representable. unfold representable, int_min, int_max.
      pose proof (Z.div_pos (n - 1) 2 ltac:(lia) ltac:(lia)).
      pose proof (Z.div_le_upper_bound (n - 1) 2 (n - 1) ltac:(lia) ltac:(lia)). lia. }
    rewrite Hq.
    pose proof (Z.div_mod (n - 1) 2 ltac:(lia)) as Hdm.
    pose proof (Z.mod_pos_bound (n - 1) 2 ltac:(lia)) as Hmb.
    assert (Hb : sub (sub n ((n - 1) / 2)) 1 = n - (n - 1) / 2 - 1).
    { rewrite (sub_representable n) by (unfold representable, int_min, int_max; lia).
      apply sub_representable. unfold representable, int_min, int_max. lia. }
    rewrite Hb, !clamp_max.
    repeat split.
    + repeat f_equal; lia.
    + lia.
    + intros He. rewrite Z.even_spec in He. destruct He as [k ->].
      replace (2 * k - 1) with (1 + (k - 1) * 2) by lia.
      rewrite Z.div_add by lia. change (1 / 2) with 0. lia.
    + intros Ho. rewrite Z.odd_spec in Ho. destruct Ho as [k ->].
      replace (2 * k + 1 - 1) with (0 + k * 2) by lia.
      rewrite Z.div_add by lia. change (0 / 2) with 0. lia.
  - intros Hn. unfold calcRows.
    destruct (Z.ltb_spec 0 n); [lia|]. reflexivity.
Qed.

Lemma calcRows_single_witness :
  calcRows defaults [6] = (3, 2, true) /\ calcRows defaults [-2] = (0, 0, false).
Proof.
  split.
  - apply (calcRows_single defaults 6); [vm_compute; split; discriminate | lia].
  - apply (calcRows_single defaults (-2)); [vm_compute; split; discriminate | lia].
Defined.

(** C8. With at least two arguments [b, a, ...], [calcRows] returns exactly
    [(max b 0, max a 0, true)]; neither the further arguments nor the
    configured defaults have any effect. *)
Theorem calcRows_two_or_more (cfg : Config) (b a : Z) (more : list Z) :
  calcRows cfg (b :: a :: more) = (Z.max b 0, Z.max a 0, true)
  /\ (forall cfg' more', calcRows cfg' (b :: a :: more') = calcRows cfg (b :: a :: more)).
Proof.
  unfold calcRows. rewrite !clamp_max. split; [reflexivity|].
  intros. reflexivity.
Qed.

(** ** [Split] and [Join] *)

Example Split_empty : Split "" = [""].
Proof. reflexivity. Qed.
Example Split_final_newline : Split ("a" +:+ nl +:+ "b" +:+ nl) = ["a"; "b"; ""].
Proof. reflexivity. Qed.
Example Split_a_go : len (Split a_go) = 10.
Proof. reflexivity. Qed.

Lemma Split_nonempty s : Split s <> [].
Proof.
  destruct s as [|c s]; simpl; [discriminate|].
  destruct (Ascii.eqb c newline); [discriminate|].
  destruct (Split s); discriminate.
Qed.

Lemma Join_singleton s : Join [s] = s.
Proof. reflexivity. Qed.

Lemma Join_cons s t rows : Join (s :: t :: rows) = s +:+ nl +:+ Join (t :: rows).
Proof. reflexivity. Qed.

(** [Join] undoes [Split]. *)
Lemma Join_Split s : Join (Split s) = s.
Proof.
  induction s as [|c s IH]; [reflexivity|]. cbn [Split].
  destruct (Ascii.eqb_spec c newline) as [->|Hc].
  - pose proof (Split_nonempty s) as Hne.
    destruct (Split s) as [|piece pieces]; [done|].
    rewrite Join_cons, IH. reflexivity.
  - pose proof (Split_nonempty s) as Hne.
    destruct (Split s) as [|piece pieces]; [done|].
    rewrite <- IH. destruct pieces; reflexivity.
Qed.

Lemma Split_length s : length (Split s) = S (occurrences newline s).
Proof.
  induction s as [|c s IH]; [reflexivity|]. cbn [Split occurrences].
  destruct (Ascii.eqb c newline).
  - cbn [length]. rewrite IH. reflexivity.
  - pose proof (Split_nonempty s) as Hne.
    destruct (Split s) as [|piece pieces]; [done|]. exact IH.
Qed.

Lemma Split_no_newline s :
  Forall (fun line => occurrences newline line = 0%nat) (Split s).
Proof.
  induction s as [|c s IH]; [repeat constructor|]. cbn [Split].
  destruct (Ascii.eqb c newline) eqn:Hc.
  - constructor; [reflexivity | exact IH].
  - pose proof (Split_nonempty s) as Hne.
    destruct (Split s) as [|piece pieces]; [done|].
    apply Forall_cons in IH as [Hp Hps].
    constructor; [|exact Hps]. cbn [occurrences]. rewrite Hc. exact Hp.
Qed.

(** ** [readLines] *)

(** A cached path is answered from the cache: the world, and with it the
    sequence of reads, stays as it is, whatever the file system holds. *)
Lemma readLines_hit path lines w :
  cache w !! path = Some lines -> readLines path w = (inl lines, w).
Proof. intros Hc. unfold readLines. rewrite Hc. reflexivity. Qed.

Lemma readLines_fs path w :
  forall r w', readLines path w = (r, w') -> fs w' = fs w.
Proof.
  intros r w'. unfold readLines.
  destruct (cache w !! path); [intros [= <- <-]; reflexivity|].
  destruct (fs w path); intros [= <- <-]; reflexivity.
Qed.

(** C6. On a path that is not cached, so that the file is read: when the
    read fails, [readLines] returns the error ["tracerr: file <path> not
    found"] and leaves the cache as it was, and a later call reads the file
    again (and succeeds when the file has appeared); when the read succeeds,
    [readLines] returns and caches the content split at newlines, and a
    second call returns the same sequence without any read, whatever the file
    system holds by then. The content split at newlines is the sequence of
    pieces without a newline that, joined by newlines, give the content
    back; there is one more of them than the content has newlines. *)
Theorem readLines_miss (path : string) (w : World) :
  cache w !! path = None ->
  (fs w path = None ->
     exists w1,
       readLines path w = (inr ("tracerr: file " +:+ path +:+ " not found"), w1)
       /\ cache w1 = cache w
       /\ reads w1 = reads w ++ [path]
       /\ forall files b, files path = Some b ->
            exists w2,
              readLines path (with_fs files w1) = (inl (Split b), w2)
              /\ reads w2 = reads w ++ [path; path])
  /\ (forall b, fs w path = Some b ->
        exists w1,
          readLines path w = (inl (Split b), w1)
          /\ cache w1 = <[path := Split b]> (cache w)
          /\ reads w1 = reads w ++ [path]
          /\ forall files,
               readLines path (with_fs files w1)
               = (inl (Split b), with_fs files w1))
  /\ (forall b,
        Join (Split b) = b
        /\ Forall (fun line => occurrences newline line = 0%nat) (Split b)
        /\ length (Split b) = S (occurrences newline b)).
Proof.
  intros Hmiss. split; [|split].
  - intros Hfail. eexists. unfold readLines at 1. rewrite Hmiss, Hfail.
    split; [reflexivity|]. simpl. repeat split.
    intros files b Hb. eexists. unfold readLines. simpl.
    rewrite Hmiss, Hb. split; [reflexivity|]. simpl.
    rewrite <- app_assoc. reflexivity.
  - intros b Hb. eexists. unfold readLines at 1. rewrite Hmiss, Hb.
    split; [reflexivity|]. simpl. repeat split.
    intros files. apply readLines_hit. simpl. apply lookup_insert_eq.
  - intros b. split; [apply Join_Split|].
    split; [apply Split_no_newline | apply Split_length].
Qed.

Lemma readLines_miss_witness :
  (exists w1,
     readLines "gone.go" (empty_world one_file)
     = (inr "tracerr: file gone.go not found", w1)
     /\ cache w1 = ∅ /\ reads w1 = ["gone.go"])
  /\ (exists w1,
        readLines "a.go" (empty_world one_file)
        = (inl ["l1"; "l2"; "l3"; "l4"; "l5"; "l6"; "l7"; "l8"; "l9"; "l10"],
           w1)
        /\ reads w1 = ["a.go"]
        /\ readLines "a.go" (with_fs (fun _ => None) w1)
           = (inl ["l1"; "l2"; "l3"; "l4"; "l5"; "l6"; "l7"; "l8"; "l9"; "l10"],
              with_fs (fun _ => None) w1))
  /\ Forall (fun line => occurrences newline line = 0%nat)
       ["l1"; "l2"; "l3"; "l4"; "l5"; "l6"; "l7"; "l8"; "l9"; "l10"].
Proof.
  split; [|split].
  - destruct (readLines_miss "gone.go" (empty_world one_file)) as [Hf _];
      [reflexivity|].
    destruct (Hf eq_refl) as (w1 & Hr & Hc & Hreads & _).
    exists w1. auto.
  - destruct (readLines_miss "a.go" (empty_world one_file)) as (_ & Hs & _);
      [reflexivity|].
    destruct (Hs a_go eq_refl) as (w1 & Hr & _ & Hreads & Hagain).
    exists w1. split; [exact Hr|]. split; [exact Hreads|]. apply Hagain.
  - destruct (readLines_miss "a.go" (empty_world one_file)) as (_ & _ & Hp);
      [reflexivity|].
    destruct (Hp a_go) as (_ & Hnl & _). exact Hnl.
Defined.

(** ** [sourceRows] *)

Section SourceRows.

Context `{Palette}.

Lemma sourceLoop_row (colorized : bool) (frame : Frame) (lines : list string)
    (i : Z) (line : string) :
  lines !! Z.to_nat i = Some line ->
  add i 1 = i + 1 ->
  (if i =? sub (Line frame) 1
   then if colorized then red (Itoa (add i 1) +:+ tb +:+ line)
        else Itoa (add i 1) +:+ tb +:+ line
   else if colorized then black (Itoa (add i 1)) +:+ tb +:+ line
        else Itoa (add i 1) +:+ tb +:+ line)
  = windowRow colorized (sub (Line frame) 1) lines i.
Proof.
  intros Hl Hi. unfold windowRow. rewrite Hl, Hi. simpl.
  destruct colorized, (i =? sub (Line frame) 1); reflexivity.
Qed.

(** The loop, started at [i] with enough fuel and an end below the largest
    [int], returns, having appended the rows of the indexes from [i] to
    [end_] that lie in the file. *)
Lemma sourceLoop_window (lines : list string) (frame : Frame)
    (colorized : bool) (end_ : Z) :
  end_ < int_max ->
  len lines <= int_max ->
  forall (n : nat) (fuel : nat) (i : Z) (rows : list string),
    n = Z.to_nat (end_ - i + 1) ->
    (n < fuel)%nat ->
    int_min <= i ->
    sourceLoop fuel lines frame colorized end_ i rows
    = Ret (rows ++ windowRows colorized (sub (Line frame) 1) i end_ lines).
Proof.
  intros Hend Hlen. unfold windowRows, windowIndexes.
  induction n as [|n IH]; intros fuel i rows Hn Hfuel Hi;
    (destruct fuel as [|fuel]; [lia|]); cbn [sourceLoop].
  - destruct (Z.leb_spec i end_); [lia|].
    rewrite seqZ_nil by lia. simpl. rewrite app_nil_r. reflexivity.
  - destruct (Z.leb_spec i end_); [|lia].
    assert (Hadd : add i 1 = i + 1).
    { apply add_representable. unfold representable. lia. }
    rewrite seqZ_cons by lia.
    replace (Z.pred (end_ - i + 1)) with (end_ - Z.succ i + 1) by lia.
    destruct (Z.ltb_spec i 0); cbn [orb].
    + rewrite filter_cons_False by lia. rewrite Hadd.
      apply IH; lia.
    + destruct (Z.leb_spec (len lines) i).
      * rewrite filter_cons_False by lia. rewrite Hadd.
        apply IH; lia.
      * rewrite filter_cons_True by lia.
        destruct (lookup_lt_is_Some_2 lines (Z.to_nat i)) as [line Hline];
          [unfold len in *; lia|].
        rewrite Hline, (sourceLoop_row colorized frame lines i line Hline Hadd).
        rewrite Hadd, (IH fuel (i + 1)) by lia.
        rewrite fmap_cons, <- app_assoc. reflexivity.
Qed.

(** With the largest [int] as its end, the loop never returns: its condition
    holds for every value of the counter. *)
Lemma sourceLoop_diverges (lines : list string) (frame : Frame)
    (colorized : bool) :
  forall (fuel : nat) (i : Z) (rows : list string),
    representable i ->
    sourceLoop fuel lines frame colorized int_max i rows = OutOfFuel.
Proof.
  induction fuel as [|fuel IH]; intros i rows Hi; cbn [sourceLoop];
    [reflexivity|].
  destruct (Z.leb_spec i int_max); [|unfold representable in Hi; lia].
  destruct (Z.ltb_spec i 0); cbn [orb].
  - apply IH, representable_wrap.
  - destruct (Z.leb_spec (len lines) i).
    + apply IH, representable_wrap.
    + destruct (lookup_lt_is_Some_2 lines (Z.to_nat i)) as [line Hline];
        [unfold len in *; lia|].
      rewrite Hline. apply IH, representable_wrap.
Qed.

(** The three branches of [sourceRows], by what [readLines] gives. *)
Lemma sourceRows_unreadable fuel rows frame before after colorized w err w' :
  readLines (Path frame) w = (inr err, w') ->
  sourceRows fuel rows frame before after colorized w
  = Ret (rows ++ [if colorized then yellow err else err; ""], w').
Proof. intros Hr. unfold sourceRows. rewrite Hr. reflexivity. Qed.

Lemma sourceRows_short fuel rows frame before after colorized w lines w' :
  readLines (Path frame) w = (inl lines, w') ->
  len lines < Line frame ->
  sourceRows fuel rows frame before after colorized w
  = Ret (rows ++ [if colorized
                  then yellow (tooFewLines (len lines) (Line frame))
                  else tooFewLines (len lines) (Line frame); ""], w').
Proof.
  intros Hr Hlt. unfold sourceRows. rewrite Hr.
  destruct (Z.ltb_spec (len lines) (Line frame)); [|lia]. reflexivity.
Qed.

Lemma sourceRows_loop fuel rows frame before after colorized w lines w' :
  readLines (Path frame) w = (inl lines, w') ->
  Line frame <= len lines ->
  sourceRows fuel rows frame before after colorized w
  = (rows' ← sourceLoop fuel lines frame colorized
               (add (sub (Line frame) 1) after)
               (sub (sub (Line frame) 1) before) rows;
     Ret (rows' ++ [""], w')).
Proof.
  intros Hr Hle. unfold sourceRows. rewrite Hr.
  destruct (Z.ltb_spec (len lines) (Line frame)); [lia|]. reflexivity.
Qed.

(** C1, as amended. For a frame whose file resolves to [lines] with
    [frame.Line <= len(lines)], when [frame.Line-1], [frame.Line-1-before]
    and [frame.Line-1+after] do not overflow an [int] and the last is below
    the largest [int], [sourceRows] with enough fuel returns, having appended
    one row for each index from [frame.Line-1-before] to
    [frame.Line-1+after] inclusive that lies in the file, in increasing
    order, and then exactly one blank row (also when no index lies in the
    file). The row of index [i] is ["<i+1>\t<line text>"] when the output is
    not colorized; when it is, the row of the traced line is that text
    wrapped by [red] and the row of any other line has its number wrapped by
    [black]. *)
Theorem sourceRows_window (fuel : nat) (rows : list string) (frame : Frame)
    (before after : Z) (colorized : bool) (w w' : World)
    (lines : list string) :
  readLines (Path frame) w = (inl lines, w') ->
  Line frame <= len lines ->
  len lines <= int_max ->
  representable (Line frame - 1) ->
  representable (Line frame - 1 - before) ->
  int_min <= Line frame - 1 + after < int_max ->
  (Z.to_nat (before + after + 1) < fuel)%nat ->
  sourceRows fuel rows frame before after colorized w
  = Ret (rows
         ++ windowRows colorized (Line frame - 1) (Line frame - 1 - before)
              (Line frame - 1 + after) lines
         ++ [""], w')
  /\ windowRows colorized (Line frame - 1) (Line frame - 1 - before)
       (Line frame - 1 + after) lines
     = (fun i =>
          if colorized then
            if i =? Line frame - 1
            then red (Itoa (i + 1) +:+ tb +:+ default "" (lines !! Z.to_nat i))
            else black (Itoa (i + 1)) +:+ tb
                 +:+ default "" (lines !! Z.to_nat i)
          else Itoa (i + 1) +:+ tb +:+ default "" (lines !! Z.to_nat i))
       <$> filter (fun i => 0 <= i < len lines)
             (seqZ (Line frame - 1 - before) (before + after + 1)).
Proof.
  intros Hr Hle Hlen Hcur Hstart Hend Hfuel.
  assert (Hc : sub (Line frame) 1 = Line frame - 1)
    by (apply sub_representable, Hcur).
  assert (Hs : sub (sub (Line frame) 1) before = Line frame - 1 - before)
    by (rewrite Hc; apply sub_representable, Hstart).
  assert (He : add (sub (Line frame) 1) after = Line frame - 1 + after).
  { rewrite Hc. apply add_representable. unfold representable, int_max in *.
    lia. }
  split.
  - rewrite (sourceRows_loop _ _ _ _ _ _ _ _ _ Hr Hle), Hs, He.
    rewrite (sourceLoop_window lines frame colorized (Line frame - 1 + after)
               ltac:(lia) Hlen
               (Z.to_nat (Line frame - 1 + after
                          - (Line frame - 1 - before) + 1))
               fuel (Line frame - 1 - before) rows eq_refl).
    + rewrite Hc. cbn. rewrite <- app_assoc. reflexivity.
    + replace (Line frame - 1 + after - (Line frame - 1 - before) + 1)
        with (before + after + 1) by lia. exact Hfuel.
    + unfold representable in Hstart. lia.
  - unfold windowRows, windowIndexes, windowRow.
    replace (Line frame - 1 + after - (Line frame - 1 - before) + 1)
      with (before + after + 1) by lia.
    reflexivity.
Qed.

(** C5. For a frame whose file resolves to [lines]: when [len(lines)] is
    strictly less than [frame.Line], [sourceRows] appends exactly the row
    ["tracerr: too few lines, got <len(lines)>, want <frame.Line>"], wrapped
    by [yellow] exactly when colorized, and one blank row, and no source
    row; when [frame.Line] equals [len(lines)] it takes the window branch
    instead. *)
Theorem sourceRows_too_few (fuel : nat) (rows : list string) (frame : Frame)
    (before after : Z) (colorized : bool) (w w' : World)
    (lines : list string) :
  readLines (Path frame) w = (inl lines, w') ->
  (len lines < Line frame ->
     sourceRows fuel rows frame before after colorized w
     = Ret (rows
            ++ [(if colorized then yellow else id)
                  ("tracerr: too few lines, got " +:+ Itoa (len lines)
                   +:+ ", want " +:+ Itoa (Line frame)); ""], w'))
  /\ (len lines = Line frame ->
      sourceRows fuel rows frame before after colorized w
      = (rows' ← sourceLoop fuel lines frame colorized
                   (add (sub (Line frame) 1) after)
                   (sub (sub (Line frame) 1) before) rows;
         Ret (rows' ++ [""], w'))).
Proof.
  intros Hr. split.
  - intros Hlt. rewrite (sourceRows_short _ _ _ _ _ _ _ _ _ Hr Hlt).
    destruct colorized; reflexivity.
  - intros Heq. apply sourceRows_loop; [exact Hr | lia].
Qed.

End SourceRows.

Lemma sourceRows_window_witness :
  rowsOf (@sourceRows ansi 4 ["main.foo"] (frame_a 5) 1 1 false
            (empty_world one_file))
  = Some ["main.foo"; "4" +:+ tb +:+ "l4"; "5" +:+ tb +:+ "l5";
          "6" +:+ tb +:+ "l6"; ""].
Proof.
  destruct (@sourceRows_window ansi 4 ["main.foo"] (frame_a 5) 1 1 false
              (empty_world one_file)
              (snd (readLines "a.go" (empty_world one_file)))
              (Split a_go)) as [Hrows _].
  - reflexivity.
  - vm_compute. discriminate.
  - vm_compute. discriminate.
  - vm_compute. split; discriminate.
  - vm_compute. split; discriminate.
  - vm_compute. split; [discriminate | reflexivity].
  - vm_compute. lia.
  - rewrite Hrows. reflexivity.
Defined.

(** The claim C1 as it is stated fails in three ways. Colorized, the rows
    are decorated, so they are not the rows ["<i+1>\t<line text>"]. With
    [frame.Line-1+after] the largest [int] the loop never ends, so no row is
    returned at all. And with [frame.Line-1+after] above the largest [int]
    the end of the window wraps below its start, so not one of the lines
    from the traced line on is shown. *)
Lemma sourceRows_plain_rows_counterexample :
  (rowsOf (@sourceRows ansi 4 [] (frame_a 5) 1 1 true (empty_world one_file))
   = Some [ansi_wrap "30" "4" +:+ tb +:+ "l4";
           ansi_wrap "31" ("5" +:+ tb +:+ "l5");
           ansi_wrap "30" "6" +:+ tb +:+ "l6"; ""]
   /\ rowsOf (@sourceRows ansi 4 [] (frame_a 5) 1 1 true
                (empty_world one_file))
      <> Some ["4" +:+ tb +:+ "l4"; "5" +:+ tb +:+ "l5";
               "6" +:+ tb +:+ "l6"; ""])
  /\ (forall fuel,
        @sourceRows ansi fuel [] (frame_a 1) 0 int_max false
          (empty_world one_file) = OutOfFuel)
  /\ (rowsOf (@sourceRows ansi 1 [] (frame_a 5) 0 int_max false
                (empty_world one_file))
      = Some [""]
      /\ rowsOf (@sourceRows ansi 1 [] (frame_a 5) 0 int_max false
                   (empty_world one_file))
         <> Some ["5" +:+ tb +:+ "l5"; "6" +:+ tb +:+ "l6";
                  "7" +:+ tb +:+ "l7"; "8" +:+ tb +:+ "l8";
                  "9" +:+ tb +:+ "l9"; "10" +:+ tb +:+ "l10"; ""]).
Proof.
  split; [split; [reflexivity | vm_compute; discriminate]|].
  split; [|split; [reflexivity | vm_compute; discriminate]].
  intros fuel.
  rewrite (@sourceRows_loop ansi fuel [] (frame_a 1) 0 int_max false
             (empty_world one_file) (Split a_go)
             (snd (readLines "a.go" (empty_world one_file))));
    [| reflexivity | vm_compute; discriminate].
  change (add (sub (Line (frame_a 1)) 1) int_max) with int_max.
  rewrite sourceLoop_diverges; [reflexivity | apply representable_wrap].
Qed.

Lemma sourceRows_too_few_witness :
  rowsOf (@sourceRows ansi 0 [] (frame_a 50) 3 2 false (empty_world one_file))
  = Some ["tracerr: too few lines, got 10, want 50"; ""]
  /\ rowsOf (@sourceRows ansi 0 [] (frame_a 50) 3 2 true
               (empty_world one_file))
     = Some [ansi_wrap "33" "tracerr: too few lines, got 10, want 50"; ""]
  /\ rowsOf (@sourceRows ansi 7 [] (frame_a 10) 3 2 false
               (empty_world one_file))
     = Some ["7" +:+ tb +:+ "l7"; "8" +:+ tb +:+ "l8"; "9" +:+ tb +:+ "l9";
             "10" +:+ tb +:+ "l10"; ""].
Proof.
  split; [|split].
  - destruct (@sourceRows_too_few ansi 0 [] (frame_a 50) 3 2 false
                (empty_world one_file)
                (snd (readLines "a.go" (empty_world one_file)))
                (Split a_go) eq_refl) as [Hshort _].
    rewrite Hshort; [reflexivity | vm_compute; reflexivity].
  - destruct (@sourceRows_too_few ansi 0 [] (frame_a 50) 3 2 true
                (empty_world one_file)
                (snd (readLines "a.go" (empty_world one_file)))
                (Split a_go) eq_refl) as [Hshort _].
    rewrite Hshort; [reflexivity | vm_compute; reflexivity].
  - destruct (@sourceRows_too_few ansi 7 [] (frame_a 10) 3 2 false
                (empty_world one_file)
                (snd (readLines "a.go" (empty_world one_file)))
                (Split a_go) eq_refl) as [_ Hloop].
    rewrite Hloop; reflexivity.
Defined.

(** ** The frame loop of [sprint] *)

Example select_all : selectFrames defaults three_frames = three_frames.
Proof. reflexivity. Qed.

Example select_ignore_first :
  Display <$> selectFrames ignore_first_one three_frames
  = ["main.two (a.go:7)"; "main.three (a.go:9)"].
Proof. reflexivity. Qed.

Example select_max :
  Display <$> selectFrames
    {| DefaultLinesAfter := 2; DefaultLinesBefore := 3;
       DefaultIgnoreFirstFrames := 1; DefaultMaxFrames := 1;
       DefaultIgnoreLastFrames := 0 |} three_frames
  = ["main.two (a.go:7)"].
Proof. reflexivity. Qed.

Example select_ignore_last :
  Display <$> selectFrames
    {| DefaultLinesAfter := 2; DefaultLinesBefore := 3;
       DefaultIgnoreFirstFrames := 0; DefaultMaxFrames := 0;
       DefaultIgnoreLastFrames := 1 |} three_frames
  = ["main.one (a.go:5)"; "main.two (a.go:7)"].
Proof. reflexivity. Qed.

Lemma len_cons {A} (x : A) (l : list A) : len (x :: l) = len l + 1.
Proof. unfold len. rewrite length_cons. lia. Qed.

Lemma len_nonneg {A} (l : list A) : 0 <= len l.
Proof. unfold len. lia. Qed.

Lemma positioned_cons first frame frames :
  positioned first (frame :: frames)
  = (first, frame) :: positioned (first + 1) frames.
Proof.
  unfold positioned. rewrite len_cons.
  rewrite seqZ_cons by (pose proof (len_nonneg frames); lia).
  replace (Z.pred (len frames + 1)) with (len frames) by lia.
  reflexivity.
Qed.

Section FrameLoop.

Context `{Palette}.

(** The loop renders, in order, the frames that the selection keeps. *)
Lemma frameLoop_select (fuel : nat) (cfg : Config) (total before after : Z)
    (withSource colorized : bool) (frames : list Frame) :
  forall (i appendedFrames : Z) (rows : list string) (w : World),
    0 <= i -> i + len frames <= int_max ->
    0 <= appendedFrames -> appendedFrames + len frames <= int_max ->
    frameLoop fuel cfg total before after withSource colorized frames
      i appendedFrames rows w
    = renderFrames fuel before after withSource colorized
        (snd <$> takeThrough (stopsAfter cfg total) appendedFrames
                   (notIgnored cfg (positioned (i + 1) frames)))
        rows w.
Proof.
  induction frames as [|frame frames IH]; intros i n rows w Hi Hil Hn Hnl;
    [reflexivity|].
  rewrite len_cons in Hil, Hnl. pose proof (len_nonneg frames) as Hlen.
  rewrite positioned_cons. cbn [frameLoop]. unfold notIgnored.
  rewrite (add_representable i 1)
    by (unfold representable, int_min, int_max in *; lia).
  destruct (Z.leb_spec (i + 1) (DefaultIgnoreFirstFrames cfg)).
  - rewrite filter_cons_False by (simpl; lia). apply IH; lia.
  - rewrite filter_cons_True by (simpl; lia).
    cbn [takeThrough fst]. unfold stopsAfter at 1.
    rewrite (add_representable n 1)
      by (unfold representable, int_min, int_max in *; lia).
    destruct ((0 <? DefaultMaxFrames cfg)
              && (DefaultMaxFrames cfg <=? n + 1)) eqn:Hmax;
      [|destruct ((0 <? DefaultIgnoreLastFrames cfg)
                  && (total <=? add (i + 1) (DefaultIgnoreLastFrames cfg)))
          eqn:Hlast];
      cbn [orb fmap list_fmap snd renderFrames];
      (destruct (if withSource
                 then sourceRows fuel
                        (rows ++ [if colorized then bold (Display frame)
                                  else Display frame])
                        frame before after colorized w
                 else Ret (rows ++ [if colorized then bold (Display frame)
                                    else Display frame], w))
         as [[rows' w']| |]; cbn; try reflexivity).
    apply IH; lia.
Qed.

End FrameLoop.

(** *** What the selection keeps *)

Lemma takeThrough_prefix (stop : Z -> Z -> bool) :
  forall (pfs : list (Z * Frame)) (n : Z),
    takeThrough stop n pfs `prefix_of` pfs.
Proof.
  induction pfs as [|pf pfs IH]; intros n; cbn [takeThrough]; [done|].
  destruct (stop (n + 1) pf.1).
  - exists pfs. reflexivity.
  - apply prefix_cons, IH.
Qed.

(** A frame after which the iteration stops is the last one kept. *)
Lemma takeThrough_stop_last (stop : Z -> Z -> bool) :
  forall (pfs : list (Z * Frame)) (n : Z) (k : nat) (pf : Z * Frame),
    takeThrough stop n pfs !! k = Some pf ->
    stop (n + Z.of_nat k + 1) pf.1 = true ->
    length (takeThrough stop n pfs) = S k.
Proof.
  induction pfs as [|pf0 pfs IH]; intros n k pf; cbn [takeThrough];
    [rewrite lookup_nil; discriminate|].
  destruct (stop (n + 1) pf0.1) eqn:Hstop; destruct k as [|k]; cbn.
  - reflexivity.
  - discriminate.
  - intros [= <-] Hs. replace (n + Z.of_nat 0 + 1) with (n + 1) in Hs by lia.
    congruence.
  - intros Hl Hs. f_equal. apply (IH (n + 1) k pf Hl).
    replace (n + 1 + Z.of_nat k + 1) with (n + Z.of_nat (S k) + 1) by lia.
    exact Hs.
Qed.

(** When some frame is left out, the iteration stopped after the last one
    kept. *)
Lemma takeThrough_truncated (stop : Z -> Z -> bool) :
  forall (pfs : list (Z * Frame)) (n : Z),
    (length (takeThrough stop n pfs) < length pfs)%nat ->
    exists pf,
      last (takeThrough stop n pfs) = Some pf
      /\ stop (n + Z.of_nat (length (takeThrough stop n pfs))) pf.1 = true.
Proof.
  induction pfs as [|pf0 pfs IH]; intros n; cbn [takeThrough length];
    [lia|].
  destruct (stop (n + 1) pf0.1) eqn:Hstop; cbn [length]; intros Hlt.
  - exists pf0. split; [reflexivity|].
    replace (n + Z.of_nat 1) with (n + 1) by lia. exact Hstop.
  - destruct (IH (n + 1)) as (pf & Hlast & Hs); [lia|].
    exists pf. split.
    + rewrite last_cons, Hlast. reflexivity.
    + replace (n + Z.of_nat (S (length (takeThrough stop (n + 1) pfs))))
        with (n + 1 + Z.of_nat (length (takeThrough stop (n + 1) pfs)))
        by lia.
      exact Hs.
Qed.

(** With [DefaultMaxFrames] set, no more frames than that are kept. *)
Lemma takeThrough_max (cfg : Config) (total : Z) :
  0 < DefaultMaxFrames cfg ->
  forall (pfs : list (Z * Frame)) (n : Z),
    n < DefaultMaxFrames cfg ->
    Z.of_nat (length (takeThrough (stopsAfter cfg total) n pfs))
    <= DefaultMaxFrames cfg - n.
Proof.
  intros Hmax. induction pfs as [|pf pfs IH]; intros n Hn;
    cbn [takeThrough length]; [lia|].
  destruct (stopsAfter cfg total (n + 1) pf.1) eqn:Hstop; cbn [length];
    [lia|].
  unfold stopsAfter in Hstop. apply orb_false_iff in Hstop as [Hm _].
  destruct (Z.ltb_spec 0 (DefaultMaxFrames cfg)); [|lia].
  destruct (Z.leb_spec (DefaultMaxFrames cfg) (n + 1)); [discriminate|].
  specialize (IH (n + 1) ltac:(lia)). lia.
Qed.

Section Sprint.

Context `{Palette}.

(** C2. In the frame loop of [sprint] over a trace of [T] frames: the loop
    renders, in their original order, the frames selected as follows. The
    frames at a position [i <= DefaultIgnoreFirstFrames] are skipped: they
    are not rendered and not counted. Of the others the loop keeps a prefix,
    which ends with the first frame after which it stops: the one with which
    [DefaultMaxFrames > 0] frames have been rendered, or the one whose
    position [i] has [i + DefaultIgnoreLastFrames >= T] (the sum as an
    [int]) while [DefaultIgnoreLastFrames > 0]; when no frame is such, all
    of them are rendered. *)
Theorem frameLoop_selection (fuel : nat) (cfg : Config) (before after : Z)
    (withSource colorized : bool) (frames : list Frame)
    (rows : list string) (w : World) :
  len frames <= int_max ->
  frameLoop fuel cfg (len frames) before after withSource colorized frames
    0 0 rows w
  = renderFrames fuel before after withSource colorized
      (snd <$> selectPositioned cfg frames) rows w
  /\ selectPositioned cfg frames
     `prefix_of` notIgnored cfg (positioned 1 frames)
  /\ (forall pf : Z * Frame, pf ∈ selectPositioned cfg frames ->
        DefaultIgnoreFirstFrames cfg < pf.1)
  /\ (0 < DefaultMaxFrames cfg ->
        Z.of_nat (length (selectPositioned cfg frames))
        <= DefaultMaxFrames cfg)
  /\ (forall (k : nat) (pf : Z * Frame),
        selectPositioned cfg frames !! k = Some pf ->
        (0 <? DefaultMaxFrames cfg)
        && (DefaultMaxFrames cfg <=? Z.of_nat k + 1)
        || (0 <? DefaultIgnoreLastFrames cfg)
           && (len frames <=? add pf.1 (DefaultIgnoreLastFrames cfg)) = true ->
        length (selectPositioned cfg frames) = S k)
  /\ ((length (selectPositioned cfg frames)
       < length (notIgnored cfg (positioned 1 frames)))%nat ->
      exists pf : Z * Frame,
        last (selectPositioned cfg frames) = Some pf
        /\ ((0 <? DefaultMaxFrames cfg)
            && (DefaultMaxFrames cfg
                <=? Z.of_nat (length (selectPositioned cfg frames)))
            || (0 <? DefaultIgnoreLastFrames cfg)
               && (len frames <=? add pf.1 (DefaultIgnoreLastFrames cfg))
            = true)).
Proof.
  intros Hlen. pose proof (len_nonneg frames).
  split; [|split; [|split; [|split; [|split]]]].
  - rewrite frameLoop_select by lia. reflexivity.
  - apply takeThrough_prefix.
  - intros pf Hin.
    destruct (takeThrough_prefix (stopsAfter cfg (len frames))
                (notIgnored cfg (positioned 1 frames)) 0) as [rest Hrest].
    assert (Hin' : pf ∈ notIgnored cfg (positioned 1 frames)).
    { rewrite Hrest. apply elem_of_app. left. exact Hin. }
    unfold notIgnored in Hin'. apply list_elem_of_filter in Hin' as [Hp _].
    exact Hp.
  - intros Hmax.
    pose proof (takeThrough_max cfg (len frames) Hmax
                  (notIgnored cfg (positioned 1 frames)) 0 Hmax) as Hb.
    unfold selectPositioned. lia.
  - intros k pf Hl Hs.
    apply (takeThrough_stop_last _ _ 0 k pf Hl).
    unfold stopsAfter.
    replace (0 + Z.of_nat k + 1) with (Z.of_nat k + 1) by lia.
    exact Hs.
  - intros Hlt.
    destruct (takeThrough_truncated (stopsAfter cfg (len frames))
                (notIgnored cfg (positioned 1 frames)) 0 Hlt)
      as (pf & Hlast & Hs).
    exists pf. split; [exact Hlast|]. exact Hs.
Qed.

(** Without source and without colour, rendering frames appends their
    display strings and touches nothing else. *)
Lemma renderFrames_headers (fuel : nat) (before after : Z)
    (frames : list Frame) :
  forall (rows : list string) (w : World),
    renderFrames fuel before after false false frames rows w
    = Ret (rows ++ (Display <$> frames), w).
Proof.
  induction frames as [|frame frames IH]; intros rows w; cbn.
  - rewrite app_nil_r. reflexivity.
  - rewrite IH, <- app_assoc. reflexivity.
Qed.

(** C4. For an error with a stack trace of fewer frames than the largest
    [int], [Sprint] returns the message followed by the display strings of
    the selected frames, joined by single newlines: no blank row, no source
    row, and no file is read or cached, whatever the files hold and
    whatever the configured defaults are. *)
Theorem Sprint_traced (fuel : nat) (cfg : Config) (msg : string)
    (frames : list Frame) (w : World) :
  len frames < int_max ->
  Sprint fuel cfg (Some (TracedError msg frames)) w
  = Ret (Join (msg :: (Display <$> selectFrames cfg frames)), w).
Proof.
  intros Hlen. pose proof (len_nonneg frames).
  unfold Sprint, sprint. cbn [calcRows Z.ltb Z.compare clamp].
  rewrite add_representable
    by (unfold representable, int_min, int_max in *; lia).
  destruct (Z.ltb_spec (len frames + 1) 0); [lia|].
  rewrite frameLoop_select by lia.
  rewrite renderFrames_headers. reflexivity.
Qed.

(** C7. For any window arguments, configuration and colorized flag,
    [sprint] of the nil error returns the empty string, and [sprint] of an
    error without a stack trace returns its message; in both cases the
    world is left as it was: no file is read. *)
Theorem sprint_nil_or_plain (fuel : nat) (cfg : Config) (nums : list Z)
    (colorized : bool) (w : World) :
  sprint fuel cfg None nums colorized w = Ret ("", w)
  /\ (forall msg,
        sprint fuel cfg (Some (PlainError msg)) nums colorized w
        = Ret (msg, w)).
Proof. split; [reflexivity | intros msg; reflexivity]. Qed.

(** C10. For an error whose stack trace is empty: [Sprint] returns exactly
    the message, and [SprintSource], with window arguments for which
    [calcRows] gives [withSource = true], returns the message followed by one
    newline; in both cases no file is read. *)
Theorem sprint_empty_trace (fuel : nat) (cfg : Config) (msg : string)
    (nums : list Z) (w : World) :
  (calcRows cfg nums).2 = true ->
  Sprint fuel cfg (Some (TracedError msg [])) w = Ret (msg, w)
  /\ SprintSource fuel cfg (Some (TracedError msg [])) nums w
     = Ret (msg +:+ nl, w).
Proof.
  intros Hws. split; [reflexivity|].
  unfold SprintSource, sprint.
  destruct (calcRows cfg nums) as [[before after] withSource].
  cbn in Hws. subst withSource.
  unfold mul. rewrite Z.mul_0_r. reflexivity.
Qed.

End Sprint.

Lemma frameLoop_selection_witness :
  rowsOf (@frameLoop ansi 0 ignore_first_one 3 0 0 false false three_frames
            0 0 ["boom"] (empty_world one_file))
  = Some ["boom"; "main.two (a.go:7)"; "main.three (a.go:9)"].
Proof.
  destruct (@frameLoop_selection ansi 0 ignore_first_one 0 0 false false
              three_frames ["boom"] (empty_world one_file)) as [Hloop _];
    [vm_compute; discriminate|].
  change (len three_frames) with 3 in Hloop. rewrite Hloop. reflexivity.
Defined.

Lemma Sprint_traced_witness :
  @Sprint ansi 0 defaults (Some (TracedError "boom" [frame_a 5]))
    (empty_world one_file)
  = Ret ("boom" +:+ nl +:+ "main.foo (a.go:5)", empty_world one_file).
Proof.
  rewrite (@Sprint_traced ansi 0 defaults "boom" [frame_a 5]
             (empty_world one_file)); [reflexivity | vm_compute; reflexivity].
Defined.

Lemma sprint_empty_trace_witness :
  @Sprint ansi 0 defaults (Some (TracedError "boom" [])) (empty_world one_file)
  = Ret ("boom", empty_world one_file)
  /\ @SprintSource ansi 0 defaults (Some (TracedError "boom" [])) [3]
       (empty_world one_file)
     = Ret ("boom" +:+ nl, empty_world one_file).
Proof.
  apply (@sprint_empty_trace ansi 0 defaults "boom" [3] (empty_world one_file)).
  reflexivity.
Defined.

(** ** Further properties of [calcRows] and [sourceRows] *)

(** X1. Without arguments [calcRows] gives the configured defaults, negative
    ones clamped to zero, and [withSource = true]. *)
Theorem calcRows_no_argument (cfg : Config) :
  calcRows cfg []
  = (Z.max (DefaultLinesBefore cfg) 0, Z.max (DefaultLinesAfter cfg) 0, true).
Proof. unfold calcRows. rewrite !clamp_max. reflexivity. Qed.

(** X2. Whatever the arguments, [before] and [after] are not negative. *)
Theorem calcRows_nonneg (cfg : Config) (nums : list Z) :
  0 <= (calcRows cfg nums).1.1 /\ 0 <= (calcRows cfg nums).1.2.
Proof.
  unfold calcRows.
  destruct (match nums with
            | [] => (DefaultLinesBefore cfg, DefaultLinesAfter cfg, true)
            | [n] =>
                if 0 <? n
                then let after := quot (sub n 1) 2 in
                     (sub (sub n after) 1, after, true)
                else (0, 0, false)
            | b :: a :: _ => (b, a, true)
            end) as [[before after] withSource].
  cbn. rewrite !clamp_max. lia.
Qed.

(** X3. For a frame whose file cannot be read, [sourceRows] appends the message
    ["tracerr: file <path> not found"], wrapped by [yellow] exactly when
    colorized, and one blank row; the cache stays as it was. *)
Theorem sourceRows_file_not_found `{Palette} (fuel : nat)
    (rows : list string) (frame : Frame) (before after : Z)
    (colorized : bool) (w : World) :
  cache w !! Path frame = None ->
  fs w (Path frame) = None ->
  exists w',
    sourceRows fuel rows frame before after colorized w
    = Ret (rows
           ++ [(if colorized then yellow else id)
                 ("tracerr: file " +:+ Path frame +:+ " not found"); ""], w')
    /\ cache w' = cache w.
Proof.
  intros Hmiss Hfail.
  exists {| cache := cache w; fs := fs w; reads := reads w ++ [Path frame] |}.
  split; [|reflexivity].
  rewrite (sourceRows_unreadable fuel rows frame before after colorized w
             ("tracerr: file " +:+ Path frame +:+ " not found")
             {| cache := cache w; fs := fs w;
                reads := reads w ++ [Path frame] |}).
  - destruct colorized; reflexivity.
  - unfold readLines. rewrite Hmiss, Hfail. reflexivity.
Qed.

Lemma sourceRows_file_not_found_witness :
  rowsOf (@sourceRows ansi 0 [] frame_missing 3 2 false (empty_world one_file))
  = Some ["tracerr: file gone.go not found"; ""].
Proof.
  destruct (@sourceRows_file_not_found ansi 0 [] frame_missing 3 2 false
              (empty_world one_file) eq_refl eq_refl) as (w' & Hrows & _).
  rewrite Hrows. reflexivity.
Defined.

(** ** Calls of [readLines] that interleave *)

(** The three steps of a call, taken with no other call in between, are
    [readLines]. *)
Lemma readLines_as_steps (path : string) (w : World) :
  let s1 := step path AtLookup w in
  let s2 := step path s1.1 s1.2 in
  let s3 := step path s2.1 s2.2 in
  s3 = (Returned (readLines path w).1, (readLines path w).2).
Proof.
  unfold readLines. cbn [step].
  destruct (cache w !! path) as [lines|]; [reflexivity|]. cbn.
  destruct (fs w path) as [b|]; reflexivity.
Qed.

Section Interleaving.

Variables (path b : string).

Lemma step_consistent (ph : phase) (w : World) :
  good b ph ->
  fs w path = Some b ->
  cache w !! path = None \/ cache w !! path = Some (Split b) ->
  good b (step path ph w).1
  /\ fs (step path ph w).2 path = Some b
  /\ (cache (step path ph w).2 !! path = None
      \/ cache (step path ph w).2 !! path = Some (Split b)).
Proof.
  intros Hgood Hfs Hcache. unfold good in *.
  destruct Hgood as [->|[->|[->| ->]]]; cbn [step].
  - destruct Hcache as [Hc|Hc]; rewrite Hc; cbn; auto 8.
  - rewrite Hfs. cbn. auto 8.
  - cbn. rewrite lookup_insert_eq. auto 8.
  - cbn. auto 8.
Qed.

Lemma sched_step_consistent (st : list phase * World) (t : nat) :
  consistent path b st -> consistent path b (sched_step path st t).
Proof.
  intros (Hfs & Hcache & Hall). unfold sched_step.
  destruct (st.1 !! t) as [ph|] eqn:Hph; [|done].
  assert (Hgood : good b ph).
  { rewrite Forall_lookup in Hall. exact (Hall t ph Hph). }
  destruct (step_consistent ph st.2 Hgood Hfs Hcache) as (Hg & Hf & Hc).
  destruct (step path ph st.2) as [ph' w']. cbn in *.
  repeat split; [exact Hf | exact Hc | apply Forall_insert; assumption].
Qed.

Lemma run_consistent (schedule : list nat) :
  forall st, consistent path b st -> consistent path b (run path schedule st).
Proof.
  induction schedule as [|t schedule IH]; intros st Hst; [exact Hst|].
  cbn. apply IH, sched_step_consistent, Hst.
Qed.

Lemma sched_step_other_paths (st : list phase * World) (t : nat) (q : string) :
  q <> path -> cache (sched_step path st t).2 !! q = cache st.2 !! q.
Proof.
  intros Hq. unfold sched_step.
  destruct (st.1 !! t) as [ph|]; [|reflexivity].
  destruct ph as [| |lines|r]; cbn [step].
  - destruct (cache st.2 !! path); reflexivity.
  - destruct (fs st.2 path); reflexivity.
  - cbn. apply lookup_insert_ne. congruence.
  - reflexivity.
Qed.

Lemma run_other_paths (schedule : list nat) (q : string) :
  q <> path ->
  forall st, cache (run path schedule st).2 !! q = cache st.2 !! q.
Proof.
  intros Hq. induction schedule as [|t schedule IH]; intros st; [reflexivity|].
  change (run path (t :: schedule) st)
    with (run path schedule (sched_step path st t)).
  rewrite IH. apply sched_step_other_paths, Hq.
Qed.

Lemma step_rank (ph : phase) (w : World) :
  (Nat.min 3 (rank ph + 1) <= rank (step path ph w).1)%nat.
Proof.
  destruct ph as [| |lines|r]; cbn [step].
  - destruct (cache w !! path); cbn; lia.
  - destruct (fs w path); cbn; lia.
  - cbn. lia.
  - cbn. lia.
Qed.

(** A call goes forward by one step each time it is scheduled, until it has
    returned; the steps of the other calls leave it where it is. *)
Lemma run_progress (t : nat) (schedule : list nat) :
  forall (st : list phase * World) (ph : phase),
    st.1 !! t = Some ph ->
    exists ph',
      (run path schedule st).1 !! t = Some ph'
      /\ (Nat.min 3 (rank ph + length (filter (fun t' => t' = t) schedule))
          <= rank ph')%nat.
Proof.
  induction schedule as [|t0 schedule IH]; intros st ph Hph.
  - exists ph. split; [exact Hph|]. rewrite filter_nil. cbn [length]. lia.
  - cbn [run fold_left]. destruct (decide (t0 = t)) as [->|Hne].
    + rewrite filter_cons_True by reflexivity.
      pose proof (step_rank ph st.2) as Hstep.
      assert (Hnext : (sched_step path st t).1 !! t
                      = Some (step path ph st.2).1).
      { unfold sched_step. rewrite Hph.
        destruct (step path ph st.2) as [ph1 w1]. cbn.
        apply list_lookup_insert_eq. apply lookup_lt_Some in Hph. exact Hph. }
      destruct (IH _ _ Hnext) as (ph' & Hl & Hr).
      exists ph'. split; [exact Hl|]. cbn [length]. lia.
    + rewrite filter_cons_False by exact Hne.
      assert (Hnext : (sched_step path st t0).1 !! t = Some ph).
      { unfold sched_step. destruct (st.1 !! t0) as [ph0|]; [|exact Hph].
        destruct (step path ph0 st.2) as [ph1 w1]. cbn.
        rewrite list_lookup_insert_ne by exact Hne. exact Hph. }
      exact (IH _ _ Hnext).
Qed.

(** X4. Any number of calls of [readLines] on one uncached path whose file holds
    [b], their steps interleaved in any order, the lookup and the insertion
    of each being atomic: a call that has returned has returned the lines of
    [b]; a call that was scheduled three times has returned; the cache
    holds for the path nothing or the lines of [b], and for the other paths
    what it held. *)
Theorem readLines_interleaved (w : World) (N : nat) (schedule : list nat) :
  fs w path = Some b ->
  cache w !! path = None ->
  (forall t r,
     (run path schedule (replicate N AtLookup, w)).1 !! t = Some (Returned r) ->
     r = inl (Split b))
  /\ (forall t,
        (t < N)%nat ->
        (3 <= length (filter (fun t' => t' = t) schedule))%nat ->
        (run path schedule (replicate N AtLookup, w)).1 !! t
        = Some (Returned (inl (Split b))))
  /\ (cache (run path schedule (replicate N AtLookup, w)).2 !! path = None
      \/ cache (run path schedule (replicate N AtLookup, w)).2 !! path
         = Some (Split b))
  /\ (forall q, q <> path ->
        cache (run path schedule (replicate N AtLookup, w)).2 !! q
        = cache w !! q).
Proof.
  intros Hfs Hmiss.
  assert (Hstart : consistent path b (replicate N AtLookup, w)).
  { repeat split; [exact Hfs | left; exact Hmiss |].
    apply Forall_replicate. left. reflexivity. }
  destruct (run_consistent schedule _ Hstart) as (_ & Hcache & Hall).
  assert (Hret : forall t r,
            (run path schedule (replicate N AtLookup, w)).1 !! t
            = Some (Returned r) -> r = inl (Split b)).
  { intros t r Ht. rewrite Forall_lookup in Hall.
    destruct (Hall t _ Ht) as [Hg|[Hg|[Hg|Hg]]]; congruence. }
  split; [exact Hret|]. split; [|split; [exact Hcache|]].
  - intros t Ht Hcount.
    destruct (run_progress t schedule (replicate N AtLookup, w) AtLookup)
      as (ph' & Hl & Hr).
    { cbn. apply lookup_replicate_2. exact Ht. }
    assert (Hrk : (3 <= rank ph')%nat) by (cbn [rank] in Hr; lia).
    destruct ph' as [| |lines|r]; cbn [rank] in Hrk; try lia.
    rewrite Hl. f_equal. f_equal. exact (Hret t r Hl).
  - intros q Hq. apply (run_other_paths schedule q Hq).
Qed.

End Interleaving.

Lemma readLines_interleaved_witness :
  (run "a.go" [0; 1; 1; 0; 0; 1]%nat
     (replicate 2 AtLookup, empty_world one_file)).1
  !! 1%nat = Some (Returned (inl (Split a_go))).
Proof.
  destruct (readLines_interleaved "a.go" a_go (empty_world one_file) 2
              [0; 1; 1; 0; 0; 1]%nat eq_refl eq_refl) as (_ & Hdone & _).
  apply Hdone; [lia | vm_compute; lia].
Defined.

(** ** What a run does to the world *)

Lemma grows_refl (paths : list string) (w : World) : grows paths w w.
Proof.
  split; [reflexivity|]. split; [reflexivity|].
  exists []. rewrite app_nil_r. auto.
Qed.

Lemma grows_trans (paths : list string) (w1 w2 w3 : World) :
  grows paths w1 w2 -> grows paths w2 w3 -> grows paths w1 w3.
Proof.
  intros (Hfs1 & Hc1 & e1 & Hr1 & He1) (Hfs2 & Hc2 & e2 & Hr2 & He2).
  split; [|split].
  - congruence.
  - etrans; eassumption.
  - exists (e1 ++ e2). split; [rewrite Hr2, Hr1, app_assoc; reflexivity|].
    apply Forall_app. split; [exact He1|].
    eapply Forall_impl; [exact He2|]. intros p [Hin Hnone].
    split; [exact Hin|]. eapply lookup_weaken_None; eassumption.
Qed.

Lemma grows_paths (paths paths' : list string) (w w' : World) :
  paths ⊆ paths' -> grows paths w w' -> grows paths' w w'.
Proof.
  intros Hsub (Hfs & Hc & e & Hr & He).
  split; [exact Hfs|]. split; [exact Hc|].
  exists e. split; [exact Hr|].
  eapply Forall_impl; [exact He|]. intros p [Hin Hnone]. auto.
Qed.

Lemma readLines_grows (path : string) (w : World) :
  grows [path] w (readLines path w).2.
Proof.
  unfold readLines. destruct (cache w !! path) as [lines|] eqn:Hc;
    [apply grows_refl|].
  assert (Hextra : Forall (fun p => p ∈ [path] /\ cache w !! p = None) [path]).
  { constructor; [|constructor]. split; [apply list_elem_of_here | exact Hc]. }
  destruct (fs w path) as [b|]; cbn.
  - split; [reflexivity|]. split; [apply insert_subseteq, Hc|].
    exists [path]. auto.
  - split; [reflexivity|]. split; [reflexivity|]. exists [path]. auto.
Qed.

Section Effects.

Context `{Palette}.

Lemma sourceRows_grows fuel rows frame before after colorized w rows' w' :
  sourceRows fuel rows frame before after colorized w = Ret (rows', w') ->
  grows [Path frame] w w'.
Proof.
  unfold sourceRows. pose proof (readLines_grows (Path frame) w) as Hg.
  destruct (readLines (Path frame) w) as [[lines|err] w1]; cbn in Hg.
  - destruct (len lines <? Line frame); [intros [= _ <-]; exact Hg|].
    destruct (sourceLoop fuel lines frame colorized _ _ rows); cbn;
      [intros [= _ <-]; exact Hg | discriminate | discriminate].
  - intros [= _ <-]. exact Hg.
Qed.

Lemma frameLoop_grows fuel cfg total before after withSource colorized
    (frames : list Frame) :
  forall i n rows w rows' w',
    frameLoop fuel cfg total before after withSource colorized frames
      i n rows w = Ret (rows', w') ->
    grows (Path <$> frames) w w'.
Proof.
  induction frames as [|frame frames IH]; intros i n rows w rows' w';
    cbn [frameLoop].
  - intros [= _ <-]. apply grows_refl.
  - assert (Htail : Path <$> frames ⊆ Path <$> frame :: frames).
    { intros p Hp. rewrite fmap_cons. apply list_elem_of_further, Hp. }
    destruct (add i 1 <=? DefaultIgnoreFirstFrames cfg).
    + intros Hloop. eapply grows_paths; [exact Htail|]. eapply IH, Hloop.
    + destruct withSource.
      * destruct (sourceRows fuel _ frame before after colorized w)
          as [[rows1 w1]| |] eqn:Hsrc; cbn; [|discriminate|discriminate].
        assert (Hg1 : grows (Path <$> frame :: frames) w w1).
        { eapply grows_paths; [|eapply sourceRows_grows, Hsrc].
          rewrite fmap_cons. intros p Hp. apply list_elem_of_singleton in Hp.
          subst p. apply list_elem_of_here. }
        destruct (_ && _); [intros [= _ <-]; exact Hg1|].
        destruct (_ && _); [intros [= _ <-]; exact Hg1|].
        intros Hloop. eapply grows_trans; [exact Hg1|].
        eapply grows_paths; [exact Htail|]. eapply IH, Hloop.
      * cbn. destruct (_ && _); [intros [= _ <-]; apply grows_refl|].
        destruct (_ && _); [intros [= _ <-]; apply grows_refl|].
        intros Hloop. eapply grows_paths; [exact Htail|]. eapply IH, Hloop.
Qed.

(** X5. When [sprint] returns, the world it leaves differs from the world
    it found only by what reading does: the file system is the same, every
    entry of the cache is still there with the same lines, and each file
    read since is the file of a frame of the trace that was not cached
    before the call. *)
Theorem sprint_grows (fuel : nat) (cfg : Config) (err : option error)
    (nums : list Z) (colorized : bool) (w w' : World) (s : string) :
  sprint fuel cfg err nums colorized w = Ret (s, w') ->
  fs w' = fs w
  /\ (forall path lines,
        cache w !! path = Some lines -> cache w' !! path = Some lines)
  /\ exists extra,
       reads w' = reads w ++ extra
       /\ forall p, p ∈ extra -> p ∈ tracePaths err /\ cache w !! p = None.
Proof.
  intros Hs.
  assert (Hg : grows (tracePaths err) w w').
  { unfold sprint in Hs. destruct err as [[msg|msg frames]|].
    - injection Hs as _ <-. apply grows_refl.
    - destruct (calcRows cfg nums) as [[before after] withSource].
      destruct (_ <? 0); [discriminate|].
      destruct (frameLoop fuel cfg (len frames) before after withSource
                  colorized frames 0 0 _ w) as [[rows1 w1]| |] eqn:Hloop;
        cbn in Hs; [|discriminate|discriminate].
      injection Hs as _ <-. eapply frameLoop_grows, Hloop.
    - injection Hs as _ <-. apply grows_refl. }
  destruct Hg as (Hfs & Hc & extra & Hr & He).
  split; [exact Hfs|]. split.
  - intros path lines Hl. eapply lookup_weaken; eassumption.
  - exists extra. split; [exact Hr|]. intros p Hp.
    rewrite Forall_forall in He. apply He, Hp.
Qed.

End Effects.

Lemma sprint_grows_witness :
  exists w' s,
    @SprintSource ansi 4 defaults (Some (TracedError "boom" [frame_a 5])) [3]
      (empty_world one_file) = Ret (s, w')
    /\ reads w' = ["a.go"]
    /\ fs w' = one_file.
Proof.
  destruct (@SprintSource ansi 4 defaults (Some (TracedError "boom" [frame_a 5]))
              [3] (empty_world one_file)) as [[s w']| |] eqn:Hs;
    [|discriminate Hs|discriminate Hs].
  exists w', s. split; [reflexivity|].
  destruct (@sprint_grows ansi 4 defaults (Some (TracedError "boom" [frame_a 5]))
              [3] false (empty_world one_file) w' s Hs)
    as (Hfs & _ & extra & Hr & _).
  split; [|exact Hfs].
  injection Hs as _ <-. reflexivity.
Defined.

(** ** Panics *)

Section Panics.

Context `{Palette}.

Lemma sourceLoop_no_panic (lines : list string) (frame : Frame)
    (colorized : bool) (end_ : Z) :
  forall (fuel : nat) (i : Z) (rows : list string),
    panics (sourceLoop fuel lines frame colorized end_ i rows) = false.
Proof.
  induction fuel as [|fuel IH]; intros i rows; cbn [sourceLoop];
    [reflexivity|].
  destruct (i <=? end_); [|reflexivity].
  destruct (Z.ltb_spec i 0); cbn [orb]; [apply IH|].
  destruct (Z.leb_spec (len lines) i); [apply IH|].
  destruct (lookup_lt_is_Some_2 lines (Z.to_nat i)) as [line Hline];
    [unfold len in *; lia|].
  rewrite Hline. apply IH.
Qed.

Lemma sourceRows_no_panic fuel rows frame before after colorized w :
  panics (sourceRows fuel rows frame before after colorized w) = false.
Proof.
  unfold sourceRows.
  destruct (readLines (Path frame) w) as [[lines|err] w1]; [|reflexivity].
  destruct (len lines <? Line frame); [reflexivity|].
  pose proof (sourceLoop_no_panic lines frame colorized
                (add (sub (Line frame) 1) after) fuel
                (sub (sub (Line frame) 1) before) rows) as Hloop.
  destruct (sourceLoop fuel lines frame colorized _ _ rows);
    [reflexivity | discriminate | reflexivity].
Qed.

Lemma frameLoop_no_panic fuel cfg total before after withSource colorized
    (frames : list Frame) :
  forall i n rows w,
    panics (frameLoop fuel cfg total before after withSource colorized
              frames i n rows w) = false.
Proof.
  induction frames as [|frame frames IH]; intros i n rows w;
    cbn [frameLoop]; [reflexivity|].
  destruct (add i 1 <=? DefaultIgnoreFirstFrames cfg); [apply IH|].
  destruct withSource.
  - pose proof (sourceRows_no_panic fuel
                  (rows ++ [if colorized then bold (Display frame)
                            else Display frame])
                  frame before after colorized w) as Hsrc.
    destruct (sourceRows fuel _ frame before after colorized w)
      as [[rows1 w1]| |]; cbn; [|discriminate|reflexivity].
    destruct (_ && _); [reflexivity|]. destruct (_ && _); [reflexivity|].
    apply IH.
  - cbn. destruct (_ && _); [reflexivity|].
    destruct (_ && _); [reflexivity|]. apply IH.
Qed.

(** X6. [sourceRows] never panics, and neither does the frame loop of
    [sprint]: the index of [lines[i]] is always within the file. And when
    the capacity computed for [make], in [int] arithmetic, is negative,
    [sprint] of an error with a stack trace panics. *)
Theorem sprint_no_index_panic (fuel : nat) (cfg : Config) (nums : list Z)
    (colorized : bool) (w : World) :
  (forall rows frame before after,
     panics (sourceRows fuel rows frame before after colorized w) = false)
  /\ (forall total before after withSource frames i n rows,
        panics (frameLoop fuel cfg total before after withSource colorized
                  frames i n rows w) = false)
  /\ (forall msg frames,
        expectedRows cfg nums frames < 0 ->
        sprint fuel cfg (Some (TracedError msg frames)) nums colorized w
        = Panic "makeslice: cap out of range").
Proof.
  split; [intros; apply sourceRows_no_panic|].
  split; [intros; apply frameLoop_no_panic|].
  intros msg frames. unfold sprint, expectedRows.
  destruct (calcRows cfg nums) as [[before after] withSource].
  intros Hneg.
  match goal with
  | |- context [if ?c <? 0 then _ else _] =>
      destruct (Z.ltb_spec c 0) as [_|Hge]; [reflexivity | lia]
  end.
Qed.

End Panics.

(** A window so large that the capacity wraps to a negative number makes
    [SprintSource] panic. *)
Example SprintSource_huge_window_panics :
  @SprintSource ansi 0 defaults (Some (TracedError "boom" [frame_a 5]))
    [0; int_max] (empty_world one_file)
  = Panic "makeslice: cap out of range".
Proof. reflexivity. Qed.

(** ** The decorators and the window arguments *)

Lemma undecorated_plain (colorized : bool) : undecorated plain colorized.
Proof. right. intros s. cbn. auto. Qed.

Lemma undecorated_false (P : Palette) : undecorated P false.
Proof. left. reflexivity. Qed.

Lemma undecorated_row (P : Palette) (colorized : bool) (s : string) :
  undecorated P colorized ->
  (if colorized then @red P s else s) = s
  /\ (if colorized then @yellow P s else s) = s
  /\ (if colorized then @black P s else s) = s
  /\ (if colorized then @bold P s else s) = s.
Proof.
  intros [-> | Hid]; [auto|].
  destruct (Hid s) as (Hr & Hy & Hb & Hbo). destruct colorized; auto.
Qed.

Lemma sourceLoop_undecorated (P : Palette) (colorized : bool)
    (lines : list string) (frame : Frame) (end_ : Z) :
  undecorated P colorized ->
  forall (fuel : nat) (i : Z) (rows : list string),
    @sourceLoop P fuel lines frame colorized end_ i rows
    = @sourceLoop plain fuel lines frame false end_ i rows.
Proof.
  intros Hun. induction fuel as [|fuel IH]; intros i rows; cbn [sourceLoop];
    [reflexivity|].
  destruct (i <=? end_); [|reflexivity].
  destruct ((i <? 0) || (len lines <=? i)); [apply IH|].
  destruct (lines !! Z.to_nat i) as [line|]; [|reflexivity].
  rewrite IH. f_equal. f_equal. f_equal.
  destruct (undecorated_row P colorized (Itoa (add i 1) +:+ tb +:+ line) Hun)
    as (Hr & _).
  destruct (undecorated_row P colorized (Itoa (add i 1)) Hun)
    as (_ & _ & Hb & _).
  destruct (i =? sub (Line frame) 1); [exact Hr|].
  destruct colorized; [|reflexivity]. rewrite Hb. reflexivity.
Qed.

Lemma sourceRows_undecorated (P : Palette) (colorized : bool) :
  undecorated P colorized ->
  forall fuel rows frame before after w,
    @sourceRows P fuel rows frame before after colorized w
    = @sourceRows plain fuel rows frame before after false w.
Proof.
  intros Hun fuel rows frame before after w. unfold sourceRows.
  destruct (readLines (Path frame) w) as [[lines|err] w1].
  - destruct (len lines <? Line frame).
    + destruct (undecorated_row P colorized
                  ("tracerr: too few lines, got " +:+ Itoa (len lines)
                   +:+ ", want " +:+ Itoa (Line frame)) Hun)
        as (_ & Hy & _).
      rewrite Hy. reflexivity.
    + rewrite (sourceLoop_undecorated P colorized lines frame _ Hun).
      reflexivity.
  - destruct (undecorated_row P colorized err Hun) as (_ & Hy & _).
    rewrite Hy. reflexivity.
Qed.

Lemma frameLoop_undecorated (P : Palette) (colorized : bool) :
  undecorated P colorized ->
  forall fuel cfg total before after withSource frames i n rows w,
    @frameLoop P fuel cfg total before after withSource colorized frames
      i n rows w
    = @frameLoop plain fuel cfg total before after withSource false frames
        i n rows w.
Proof.
  intros Hun fuel cfg total before after withSource frames.
  induction frames as [|frame frames IH]; intros i n rows w;
    cbn [frameLoop]; [reflexivity|].
  destruct (add i 1 <=? DefaultIgnoreFirstFrames cfg); [apply IH|].
  destruct (undecorated_row P colorized (Display frame) Hun)
    as (_ & _ & _ & Hbo).
  rewrite Hbo, (sourceRows_undecorated P colorized Hun).
  destruct (if withSource
            then @sourceRows plain fuel (rows ++ [Display frame]) frame
                   before after false w
            else Ret (rows ++ [Display frame], w)) as [[rows1 w1]| |];
    cbn; [|reflexivity|reflexivity].
  destruct (_ && _); [reflexivity|]. destruct (_ && _); [reflexivity|].
  apply IH.
Qed.

Lemma sprint_undecorated (P : Palette) (colorized : bool) :
  undecorated P colorized ->
  forall fuel cfg err nums w,
    @sprint P fuel cfg err nums colorized w
    = @sprint plain fuel cfg err nums false w.
Proof.
  intros Hun fuel cfg err nums w. unfold sprint.
  destruct err as [[msg|msg frames]|]; [reflexivity| |reflexivity].
  destruct (calcRows cfg nums) as [[before after] withSource].
  destruct (_ <? 0); [reflexivity|].
  rewrite (frameLoop_undecorated P colorized Hun). reflexivity.
Qed.

(** X7. What [sprint] returns without colour does not depend on the
    decorators; and with decorators that return their argument, what it
    returns with colour is what it returns without. *)
Theorem sprint_decorators (P1 P2 : Palette) (fuel : nat) (cfg : Config)
    (err : option error) (nums : list Z) (w : World) :
  @sprint P1 fuel cfg err nums false w = @sprint P2 fuel cfg err nums false w
  /\ @sprint plain fuel cfg err nums true w
     = @sprint P1 fuel cfg err nums false w.
Proof.
  split.
  - rewrite (sprint_undecorated P1 false (undecorated_false P1)).
    rewrite (sprint_undecorated P2 false (undecorated_false P2)).
    reflexivity.
  - rewrite (sprint_undecorated plain true (undecorated_plain true)).
    rewrite (sprint_undecorated P1 false (undecorated_false P1)).
    reflexivity.
Qed.

Section Arguments.

Context `{Palette}.

Lemma sprint_calcRows fuel cfg err nums nums' colorized w :
  calcRows cfg nums = calcRows cfg nums' ->
  sprint fuel cfg err nums colorized w = sprint fuel cfg err nums' colorized w.
Proof.
  intros Hc. unfold sprint.
  destruct err as [[msg|msg frames]|]; [reflexivity| |reflexivity].
  rewrite Hc. reflexivity.
Qed.

(** X8. A single window argument that is zero or negative makes
    [SprintSource] return what [Sprint] returns; and window arguments after
    the second change nothing, with or without colour. *)
Theorem SprintSource_arguments (fuel : nat) (cfg : Config)
    (err : option error) (n b a : Z) (more : list Z) (w : World) :
  n <= 0 ->
  SprintSource fuel cfg err [n] w = Sprint fuel cfg err w
  /\ SprintSource fuel cfg err (b :: a :: more) w
     = SprintSource fuel cfg err [b; a] w
  /\ SprintSourceColor fuel cfg err (b :: a :: more) w
     = SprintSourceColor fuel cfg err [b; a] w.
Proof.
  intros Hn. unfold SprintSource, SprintSourceColor, Sprint.
  split; [|split]; apply sprint_calcRows; [|reflexivity|reflexivity].
  unfold calcRows. destruct (Z.ltb_spec 0 n); [lia|]. reflexivity.
Qed.

End Arguments.

Lemma SprintSource_arguments_witness :
  @SprintSource ansi 0 defaults (Some (TracedError "boom" [frame_a 5])) [-1]
    (empty_world one_file)
  = Ret ("boom" +:+ nl +:+ "main.foo (a.go:5)", empty_world one_file).
Proof.
  destruct (@SprintSource_arguments ansi 0 defaults
              (Some (TracedError "boom" [frame_a 5])) (-1) 0 0 []
              (empty_world one_file)) as [Heq _]; [lia|].
  rewrite Heq. reflexivity.
Defined.

(** ** The selection of frames in closed form *)

Lemma positioned_nil first : positioned first [] = [].
Proof. reflexivity. Qed.

Lemma notIgnored_positioned (cfg : Config) (frames : list Frame) :
  forall first,
    notIgnored cfg (positioned first frames)
    = positioned
        (first + Z.max 0 (DefaultIgnoreFirstFrames cfg - first + 1))
        (drop (Z.to_nat (Z.max 0 (DefaultIgnoreFirstFrames cfg - first + 1)))
           frames).
Proof.
  induction frames as [|frame frames IH]; intros first.
  - rewrite drop_nil. reflexivity.
  - rewrite positioned_cons. unfold notIgnored in *.
    destruct (Z_lt_le_dec (DefaultIgnoreFirstFrames cfg) first) as [Hlt|Hle].
    + rewrite filter_cons_True by (cbn; lia). rewrite IH.
      replace (Z.max 0 (DefaultIgnoreFirstFrames cfg - first + 1)) with 0
        by lia.
      replace (Z.max 0 (DefaultIgnoreFirstFrames cfg - (first + 1) + 1))
        with 0 by lia.
      change (Z.to_nat 0) with 0%nat.
      rewrite !drop_0, !Z.add_0_r, positioned_cons. reflexivity.
    + rewrite filter_cons_False by (cbn; lia). rewrite IH.
      replace (Z.to_nat (Z.max 0 (DefaultIgnoreFirstFrames cfg - first + 1)))
        with (S (Z.to_nat
                   (Z.max 0 (DefaultIgnoreFirstFrames cfg - (first + 1) + 1))))
        by lia.
      cbn [drop]. f_equal. lia.
Qed.

Lemma takeThrough_positioned (cfg : Config) (total : Z)
    (frames : list Frame) :
  forall (big r p : Z),
    len frames <= big ->
    1 <= p ->
    (0 < DefaultIgnoreLastFrames cfg -> 0 < len frames ->
     p + len frames - 1 + DefaultIgnoreLastFrames cfg <= int_max) ->
    snd <$> takeThrough (stopsAfter cfg total) r (positioned p frames)
    = take
        (Z.to_nat
           (Z.min
              (if 0 <? DefaultMaxFrames cfg
               then Z.max 1 (DefaultMaxFrames cfg - r) else big)
              (if 0 <? DefaultIgnoreLastFrames cfg
               then Z.max 1 (total - DefaultIgnoreLastFrames cfg - p + 1)
               else big)))
        frames.
Proof.
  induction frames as [|frame frames IH]; intros big r p Hbig Hp Hwrap.
  - rewrite take_nil. reflexivity.
  - rewrite len_cons in Hbig, Hwrap. pose proof (len_nonneg frames) as Hlen.
    rewrite positioned_cons. cbn [takeThrough fst]. unfold stopsAfter at 1.
    assert (Hadd : 0 < DefaultIgnoreLastFrames cfg ->
                   add p (DefaultIgnoreLastFrames cfg)
                   = p + DefaultIgnoreLastFrames cfg).
    { intros Hl. apply add_representable.
      unfold representable, int_min, int_max in *. lia. }
    specialize (IH (big - 1) (r + 1) (p + 1) ltac:(lia) ltac:(lia)
                  ltac:(intros; lia)).
    destruct (Z.ltb_spec 0 (DefaultMaxFrames cfg)) as [Hm|Hm];
      destruct (Z.ltb_spec 0 (DefaultIgnoreLastFrames cfg)) as [Hl|Hl];
      cbn [andb orb];
      try rewrite (Hadd Hl);
      try destruct (Z.leb_spec (DefaultMaxFrames cfg) (r + 1));
      try destruct (Z.leb_spec total (p + DefaultIgnoreLastFrames cfg));
      cbn [andb orb fmap list_fmap snd];
      try (match goal with
           | |- [_] = take (Z.to_nat ?c) _ =>
               replace (Z.to_nat c) with 1%nat by lia; reflexivity
           end);
      (rewrite IH;
       match goal with
       | |- _ :: take (Z.to_nat ?c') _ = take (Z.to_nat ?c) _ =>
           replace (Z.to_nat c) with (S (Z.to_nat c')) by lia; reflexivity
       end).
Qed.

Section ClosedForm.

Context `{Palette}.

(** X9. When [len(frames) + DefaultIgnoreLastFrames] is an [int], the loop
    of [sprint] renders, in order, this slice of the trace: it skips the
    first [DefaultIgnoreFirstFrames] frames, and of the frames that follow
    it renders at most [DefaultMaxFrames] when that is set and, when
    [DefaultIgnoreLastFrames] is set, stops at the position
    [len(frames) - DefaultIgnoreLastFrames] but renders one frame at least.
    With the three settings at zero or below it renders every frame. *)
Theorem frameLoop_closed_form (fuel : nat) (cfg : Config) (before after : Z)
    (withSource colorized : bool) (frames : list Frame)
    (rows : list string) (w : World) :
  len frames + DefaultIgnoreLastFrames cfg <= int_max ->
  len frames <= int_max ->
  frameLoop fuel cfg (len frames) before after withSource colorized frames
    0 0 rows w
  = renderFrames fuel before after withSource colorized
      (take (Z.to_nat (kept cfg (len frames)))
         (drop (Z.to_nat (skipped cfg)) frames)) rows w
  /\ (DefaultIgnoreFirstFrames cfg <= 0 -> DefaultMaxFrames cfg <= 0 ->
      DefaultIgnoreLastFrames cfg <= 0 ->
      take (Z.to_nat (kept cfg (len frames)))
        (drop (Z.to_nat (skipped cfg)) frames) = frames).
Proof.
  intros Hwrap Hlen. pose proof (len_nonneg frames) as Hnn. split.
  - rewrite frameLoop_select by lia. f_equal.
    change (0 + 1) with 1. rewrite notIgnored_positioned.
    replace (Z.max 0 (DefaultIgnoreFirstFrames cfg - 1 + 1))
      with (skipped cfg) by (unfold skipped; lia).
    assert (Hdrop : len (drop (Z.to_nat (skipped cfg)) frames)
                    = Z.max 0 (len frames - skipped cfg)).
    { unfold len. rewrite length_drop. unfold skipped. lia. }
    rewrite (takeThrough_positioned cfg (len frames) _ (len frames) 0
               (1 + skipped cfg)).
    + unfold kept. f_equal. f_equal. unfold skipped.
      destruct (0 <? DefaultMaxFrames cfg) eqn:Hm;
        destruct (0 <? DefaultIgnoreLastFrames cfg); lia.
    + rewrite Hdrop. unfold skipped. lia.
    + unfold skipped. lia.
    + intros Hl Hpos. rewrite Hdrop in *. unfold skipped in *. lia.
  - intros Hf Hm Hl. unfold kept, skipped.
    destruct (Z.ltb_spec 0 (DefaultMaxFrames cfg)); [lia|].
    destruct (Z.ltb_spec 0 (DefaultIgnoreLastFrames cfg)); [lia|].
    replace (Z.max 0 (DefaultIgnoreFirstFrames cfg)) with 0 by lia.
    rewrite drop_0. apply take_ge. unfold len. lia.
Qed.

End ClosedForm.

Lemma frameLoop_closed_form_witness :
  rowsOf (@frameLoop ansi 0
            {| DefaultLinesAfter := 2; DefaultLinesBefore := 3;
               DefaultIgnoreFirstFrames := 0; DefaultMaxFrames := 0;
               DefaultIgnoreLastFrames := 5 |}
            3 0 0 false false three_frames 0 0 ["boom"] (empty_world one_file))
  = Some ["boom"; "main.one (a.go:5)"].
Proof.
  destruct (@frameLoop_closed_form ansi 0
              {| DefaultLinesAfter := 2; DefaultLinesBefore := 3;
                 DefaultIgnoreFirstFrames := 0; DefaultMaxFrames := 0;
                 DefaultIgnoreLastFrames := 5 |}
              0 0 false false three_frames ["boom"] (empty_world one_file))
    as [Hloop _]; [vm_compute; discriminate | vm_compute; discriminate |].
  change (len three_frames) with 3 in Hloop. rewrite Hloop. reflexivity.
Defined.

(** ** The report as a function of the files *)

Lemma coherent_empty files : coherent (empty_world files).
Proof. intros path lines Hl. cbn in Hl. rewrite lookup_empty in Hl. done. Qed.

Lemma readLines_coherent (path : string) (w : World) :
  coherent w ->
  exists w',
    readLines path w
    = (match fs w path with
       | Some b => inl (Split b)
       | None => inr ("tracerr: file " +:+ path +:+ " not found")
       end, w')
    /\ coherent w' /\ fs w' = fs w.
Proof.
  intros Hco. unfold readLines.
  destruct (cache w !! path) as [lines|] eqn:Hc.
  - destruct (Hco path lines Hc) as (b & Hb & ->). rewrite Hb.
    exists w. auto.
  - destruct (fs w path) as [b|] eqn:Hb; eexists; (split; [reflexivity|]);
      (split; [|reflexivity]); intros q lines; cbn.
    + destruct (decide (path = q)) as [<-|Hne].
      * rewrite lookup_insert_eq. intros [= <-]. eauto.
      * rewrite lookup_insert_ne by exact Hne. apply Hco.
    + apply Hco.
Qed.

(** In its natural range a window fits: a positive line number, a window
    that is not negative and ends below the largest [int], enough fuel,
    and files of no more lines than an [int] can count. *)
Lemma windowFits_natural (fuel : nat) (files : string -> option string)
    (before after : Z) (frame : Frame) :
  1 <= Line frame ->
  0 <= before <= int_max ->
  0 <= after ->
  Line frame + after <= int_max ->
  (Z.to_nat (before + after + 1) < fuel)%nat ->
  (forall b, files (Path frame) = Some b -> len (Split b) <= int_max) ->
  windowFits fuel files before after frame.
Proof.
  intros Hline Hb Ha Hend Hfuel Hfile. unfold windowFits.
  destruct (files (Path frame)) as [b|] eqn:Hf; [|exact I].
  intros Hle. specialize (Hfile b eq_refl).
  assert (Hcur : sub (Line frame) 1 = Line frame - 1).
  { apply sub_representable. unfold representable, int_min, int_max in *.
    lia. }
  rewrite Hcur.
  rewrite (sub_representable (Line frame - 1) before)
    by (unfold representable, int_min, int_max in *; lia).
  rewrite (add_representable (Line frame - 1) after)
    by (unfold representable, int_min, int_max in *; lia).
  split; [exact Hfile|]. split; lia.
Qed.

Section ReportProofs.

Context `{Palette}.

Lemma sourceRows_block fuel rows frame before after colorized w :
  coherent w ->
  windowFits fuel (fs w) before after frame ->
  exists w',
    sourceRows fuel rows frame before after colorized w
    = Ret (rows ++ sourceBlock (fs w) colorized before after frame, w')
    /\ coherent w' /\ fs w' = fs w.
Proof.
  intros Hco Hfit.
  destruct (readLines_coherent (Path frame) w Hco) as (w' & Hr & Hco' & Hfs).
  exists w'. split; [|auto].
  unfold windowFits in Hfit. unfold sourceBlock.
  destruct (fs w (Path frame)) as [b|].
  - destruct (Z.ltb_spec (len (Split b)) (Line frame)) as [Hlt|Hle].
    + rewrite (sourceRows_short _ _ _ _ _ _ _ _ _ Hr Hlt).
      destruct colorized; reflexivity.
    + destruct (Hfit Hle) as (Hlen & Hend & Hfuel).
      rewrite (sourceRows_loop _ _ _ _ _ _ _ _ _ Hr Hle).
      rewrite (sourceLoop_window (Split b) frame colorized _ Hend Hlen _ fuel
                 _ rows eq_refl Hfuel) by apply representable_wrap.
      cbn. rewrite <- app_assoc. reflexivity.
  - rewrite (sourceRows_unreadable _ _ _ _ _ _ _ _ _ Hr).
    destruct colorized; reflexivity.
Qed.

Lemma renderFrames_blocks fuel before after withSource colorized
    (frames : list Frame) :
  forall rows w,
    coherent w ->
    (withSource = true ->
     Forall (windowFits fuel (fs w) before after) frames) ->
    exists w',
      renderFrames fuel before after withSource colorized frames rows w
      = Ret (rows
             ++ concat (frameBlock (fs w) withSource colorized before after
                        <$> frames), w')
      /\ coherent w' /\ fs w' = fs w.
Proof.
  induction frames as [|frame frames IH]; intros rows w Hco Hfit.
  - exists w. cbn. rewrite app_nil_r. auto.
  - cbn [renderFrames]. destruct withSource.
    + specialize (Hfit eq_refl). apply Forall_cons in Hfit as [Hf Hfs].
      destruct (sourceRows_block fuel
                  (rows ++ [if colorized then bold (Display frame)
                            else Display frame])
                  frame before after colorized w Hco Hf)
        as (w1 & Hsrc & Hco1 & Hfs1).
      rewrite Hsrc. cbn [mbind outcome_bind].
      destruct (IH (rows ++ [if colorized then bold (Display frame)
                             else Display frame]
                    ++ sourceBlock (fs w) colorized before after frame) w1
                  Hco1) as (w' & Hrest & Hco' & Hfs').
      { intros _. rewrite Hfs1. exact Hfs. }
      exists w'. rewrite <- app_assoc, Hrest, Hfs1.
      split; [|split; [exact Hco' | congruence]].
      rewrite fmap_cons. cbn [concat frameBlock].
      rewrite <- !app_assoc. reflexivity.
    + cbn [mbind outcome_bind].
      destruct (IH (rows ++ [if colorized then bold (Display frame)
                             else Display frame]) w Hco)
        as (w' & Hrest & Hco' & Hfs'); [discriminate|].
      exists w'. rewrite Hrest. split; [|auto].
      rewrite fmap_cons. cbn [concat frameBlock].
      rewrite <- !app_assoc. reflexivity.
Qed.

(** X10. For an error with a stack trace, from a cache that holds nothing
    but lines of files as they are, and when, with source, the window of
    every selected frame fits: the frame loop of [sprint], started as
    [sprint] starts it, returns the rows of the report. The rows are the
    message, a blank row with source, and for each selected frame its header
    and, with source, its block: they depend on the files, not on what is
    cached. So whenever [sprint] returns, it returns these rows joined by
    newlines, and the cache that is left again holds nothing but lines of
    files as they are. *)
Theorem frameLoop_report (fuel : nat) (cfg : Config) (msg : string)
    (frames : list Frame) (nums : list Z) (colorized : bool) (w : World) :
  coherent w ->
  len frames <= int_max ->
  ((calcRows cfg nums).2 = true ->
   Forall (windowFits fuel (fs w) (calcRows cfg nums).1.1
             (calcRows cfg nums).1.2)
     (selectFrames cfg frames)) ->
  (exists w',
     frameLoop fuel cfg (len frames) (calcRows cfg nums).1.1
       (calcRows cfg nums).1.2 (calcRows cfg nums).2 colorized frames 0 0
       (if (calcRows cfg nums).2 then [msg] ++ [""] else [msg]) w
     = Ret (reportRows (fs w) cfg nums colorized msg frames, w')
     /\ coherent w' /\ fs w' = fs w)
  /\ (forall s w',
        sprint fuel cfg (Some (TracedError msg frames)) nums colorized w
        = Ret (s, w') ->
        s = Join (reportRows (fs w) cfg nums colorized msg frames)
        /\ coherent w' /\ fs w' = fs w).
Proof.
  intros Hco Hlen Hfit. pose proof (len_nonneg frames) as Hnn.
  unfold sprint, reportRows.
  destruct (calcRows cfg nums) as [[before after] withSource].
  cbn [fst snd] in *.
  assert (Hloop : exists w',
            frameLoop fuel cfg (len frames) before after withSource colorized
              frames 0 0 (if withSource then [msg] ++ [""] else [msg]) w
            = Ret ((msg :: (if withSource then [""] else []))
                   ++ concat (frameBlock (fs w) withSource colorized before
                                after <$> selectFrames cfg frames), w')
            /\ coherent w' /\ fs w' = fs w).
  { rewrite frameLoop_select by lia.
    destruct (renderFrames_blocks fuel before after withSource colorized
                (selectFrames cfg frames)
                (if withSource then [msg] ++ [""] else [msg]) w Hco Hfit)
      as (w' & Hrender & Hco' & Hfs').
    exists w'. unfold selectFrames, selectPositioned in *.
    change (0 + 1) with 1. rewrite Hrender.
    split; [|auto]. destruct withSource; reflexivity. }
  split; [exact Hloop|].
  destruct Hloop as (w1 & Hloop & Hco1 & Hfs1).
  intros s w'. destruct (_ <? 0); [discriminate|].
  rewrite Hloop. cbn [mbind outcome_bind]. intros [= <- <-]. auto.
Qed.

End ReportProofs.

Lemma frameLoop_report_witness :
  exists w',
    @frameLoop ansi 4 defaults 1 1 1 true false [frame_a 5] 0 0 ["boom"; ""]
      (empty_world one_file)
    = Ret (["boom"; ""; "main.foo (a.go:5)"; "4" +:+ tb +:+ "l4";
            "5" +:+ tb +:+ "l5"; "6" +:+ tb +:+ "l6"; ""], w').
Proof.
  destruct (@frameLoop_report ansi 4 defaults "boom" [frame_a 5] [3] false
              (empty_world one_file)) as ((w' & Hloop & _) & _).
  - apply coherent_empty.
  - vm_compute. discriminate.
  - intros _. change (calcRows defaults [3]) with (1, 1, true).
    change (selectFrames defaults [frame_a 5]) with [frame_a 5].
    constructor; [|constructor].
    apply (windowFits_natural 4 one_file 1 1 (frame_a 5)).
    + vm_compute. discriminate.
    + vm_compute. split; discriminate.
    + lia.
    + vm_compute. discriminate.
    + vm_compute. lia.
    + intros b Hb. vm_compute in Hb. injection Hb as <-.
      vm_compute. discriminate.
  - exists w'. exact Hloop.
Defined.

(** ** The lines that [readLines] caches *)

(** X11. The lines that [readLines] returns and caches for a file it reads
    are the file: joined by newlines they give back its content, none of
    them holds a newline, and there is one more of them than the content
    has newlines (so a final newline gives a final empty line, and the empty
    file one empty line). *)
Theorem readLines_lines (path : string) (w : World) (b : string) :
  cache w !! path = None ->
  fs w path = Some b ->
  exists lines w',
    readLines path w = (inl lines, w')
    /\ cache w' !! path = Some lines
    /\ Join lines = b
    /\ Forall (fun line => occurrences newline line = 0%nat) lines
    /\ length lines = S (occurrences newline b).
Proof.
  intros Hmiss Hb. unfold readLines. rewrite Hmiss, Hb.
  eexists _, _. split; [reflexivity|]. cbn.
  split; [apply lookup_insert_eq|].
  split; [apply Join_Split|].
  split; [apply Split_no_newline | apply Split_length].
Qed.

Lemma readLines_lines_witness :
  exists lines w',
    readLines "a.go" (empty_world one_file) = (inl lines, w')
    /\ Join lines = a_go /\ length lines = 10%nat.
Proof.
  destruct (readLines_lines "a.go" (empty_world one_file) a_go eq_refl eq_refl)
    as (lines & w' & Hr & _ & Hj & _ & Hl).
  exists lines, w'. auto.
Defined.

(** ** The number of rows *)

Lemma wrap_period z : wrap (z + 2 ^ 64) = wrap z.
Proof.
  unfold wrap. replace (z + 2 ^ 64 + 2 ^ 63) with (z + 2 ^ 63 + 1 * 2 ^ 64)
    by lia.
  rewrite Z_mod_plus_full. reflexivity.
Qed.

Lemma wrap_multiple z k : wrap (z + k * 2 ^ 64) = wrap z.
Proof.
  unfold wrap. replace (z + k * 2 ^ 64 + 2 ^ 63) with (z + 2 ^ 63 + k * 2 ^ 64)
    by lia.
  rewrite Z_mod_plus_full. reflexivity.
Qed.

Lemma wrap_congruent z : exists k, wrap z = z + k * 2 ^ 64.
Proof.
  exists (- ((z + 2 ^ 63) / 2 ^ 64)). unfold wrap.
  pose proof (Z.div_mod (z + 2 ^ 63) (2 ^ 64) ltac:(lia)). lia.
Qed.

Lemma wrap_add_l x y : wrap (wrap x + y) = wrap (x + y).
Proof.
  destruct (wrap_congruent x) as [k ->].
  replace (x + k * 2 ^ 64 + y) with (x + y + k * 2 ^ 64) by lia.
  apply wrap_multiple.
Qed.

Lemma wrap_mul_l x y : wrap (wrap x * y) = wrap (x * y).
Proof.
  destruct (wrap_congruent x) as [k ->].
  replace ((x + k * 2 ^ 64) * y) with (x * y + (k * y) * 2 ^ 64) by lia.
  apply wrap_multiple.
Qed.

Lemma sub_cases a b :
  representable a -> 0 <= b <= int_max ->
  sub a b = a - b \/ sub a b = a - b + 2 ^ 64.
Proof.
  intros Ha Hb. unfold sub, representable, int_min, int_max in *.
  destruct (Z_lt_le_dec (a - b) (- 2 ^ 63)).
  - right. rewrite <- wrap_period. apply wrap_representable.
    unfold representable, int_min, int_max. lia.
  - left. apply wrap_representable.
    unfold representable, int_min, int_max. lia.
Qed.

Lemma add_cases a b :
  representable a -> 0 <= b <= int_max ->
  add a b = a + b \/ add a b = a + b - 2 ^ 64.
Proof.
  intros Ha Hb. unfold add, representable, int_min, int_max in *.
  destruct (Z_lt_le_dec (2 ^ 63 - 1) (a + b)).
  - right. transitivity (wrap (a + b - 2 ^ 64)).
    + rewrite <- (wrap_period (a + b - 2 ^ 64)). f_equal. lia.
    + apply wrap_representable.
      unfold representable, int_min, int_max. lia.
  - left. apply wrap_representable.
    unfold representable, int_min, int_max. lia.
Qed.

Lemma len_app {A} (l k : list A) : len (l ++ k) = len l + len k.
Proof. unfold len. rewrite length_app. lia. Qed.

Section RowCount.

Context `{Palette}.

Lemma sourceLoop_rows_bound (lines : list string) (frame : Frame)
    (colorized : bool) (end_ : Z) :
  end_ <= int_max ->
  forall (fuel : nat) (i : Z) (rows rows' : list string),
    representable i ->
    sourceLoop fuel lines frame colorized end_ i rows = Ret rows' ->
    len rows' <= len rows + Z.max 0 (end_ - i + 1).
Proof.
  intros Hend.
  destruct (Z.eq_dec end_ int_max) as [->|Hne].
  { intros fuel i rows rows' Hi Hloop.
    rewrite sourceLoop_diverges in Hloop by exact Hi. discriminate. }
  induction fuel as [|fuel IH]; intros i rows rows' Hi; cbn [sourceLoop];
    [discriminate|].
  destruct (Z.leb_spec i end_); [|intros [= <-]; lia].
  assert (Hadd : add i 1 = i + 1).
  { apply add_representable. unfold representable in *. lia. }
  assert (Hi' : representable (i + 1)) by (unfold representable in *; lia).
  rewrite Hadd.
  destruct ((i <? 0) || (len lines <=? i)).
  - intros Hloop. specialize (IH _ _ _ Hi' Hloop). lia.
  - destruct (lines !! Z.to_nat i) as [line|]; [|discriminate].
    intros Hloop. specialize (IH _ _ _ Hi' Hloop).
    rewrite len_app in IH. change (len [_]) with 1 in IH. lia.
Qed.

Lemma sourceRows_rows_bound fuel rows frame before after colorized w rows' w' :
  0 <= before <= int_max ->
  0 <= after <= int_max ->
  sourceRows fuel rows frame before after colorized w = Ret (rows', w') ->
  len rows' <= len rows + before + after + 2.
Proof.
  intros Hb Ha. unfold sourceRows.
  destruct (readLines (Path frame) w) as [[lines|err] w1].
  - destruct (len lines <? Line frame).
    + intros [= <- _]. rewrite len_app. change (len [_; _]) with 2. lia.
    + pose proof (representable_wrap (Line frame - 1)) as Hcur.
      fold (sub (Line frame) 1) in Hcur.
      pose proof (sub_cases (sub (Line frame) 1) before Hcur Hb) as Hs.
      pose proof (add_cases (sub (Line frame) 1) after Hcur Ha) as He.
      pose proof (representable_wrap (sub (Line frame) 1 + after)) as Hre.
      fold (add (sub (Line frame) 1) after) in Hre.
      pose proof (representable_wrap (sub (Line frame) 1 - before)) as Hrs.
      fold (sub (sub (Line frame) 1) before) in Hrs.
      destruct (sourceLoop fuel lines frame colorized _ _ rows)
        as [rows1| |] eqn:Hloop; cbn; [|discriminate|discriminate].
      intros [= <- _].
      apply sourceLoop_rows_bound in Hloop;
        [|unfold representable in Hre; lia | exact Hrs].
      rewrite len_app. change (len [_]) with 1.
      unfold representable, int_min, int_max in *. lia.
  - intros [= <- _]. rewrite len_app. change (len [_; _]) with 2. lia.
Qed.

Lemma frameLoop_rows_bound fuel cfg total before after withSource colorized
    (frames : list Frame) :
  0 <= before <= int_max ->
  0 <= after <= int_max ->
  forall i n rows w rows' w',
    frameLoop fuel cfg total before after withSource colorized frames
      i n rows w = Ret (rows', w') ->
    len rows'
    <= len rows + (if withSource then before + after + 3 else 1) * len frames.
Proof.
  intros Hb Ha.
  induction frames as [|frame frames IH]; intros i n rows w rows' w';
    cbn [frameLoop].
  - intros [= <- _]. unfold len at 3. cbn. lia.
  - rewrite len_cons. pose proof (len_nonneg frames) as Hnn.
    assert (Hper : 0 <= (if withSource then before + after + 3 else 1)
                        * len frames)
      by (destruct withSource; nia).
    destruct (add i 1 <=? DefaultIgnoreFirstFrames cfg).
    + intros Hloop. specialize (IH _ _ _ _ _ _ Hloop).
      destruct withSource; nia.
    + destruct withSource.
      * destruct (sourceRows fuel _ frame before after colorized w)
          as [[rows1 w1]| |] eqn:Hsrc; cbn; [|discriminate|discriminate].
        apply (sourceRows_rows_bound _ _ _ _ _ _ _ _ _ Hb Ha) in Hsrc.
        rewrite len_app in Hsrc. change (len [_]) with 1 in Hsrc.
        destruct (_ && _); [intros [= <- _]; nia|].
        destruct (_ && _); [intros [= <- _]; nia|].
        intros Hloop. specialize (IH _ _ _ _ _ _ Hloop). nia.
      * cbn. destruct (_ && _);
          [intros [= <- _]; rewrite len_app; change (len [_]) with 1; nia|].
        destruct (_ && _);
          [intros [= <- _]; rewrite len_app; change (len [_]) with 1; nia|].
        intros Hloop. specialize (IH _ _ _ _ _ _ Hloop).
        rewrite len_app in IH. change (len [_]) with 1 in IH. nia.
Qed.

Lemma calcRows_clamped (cfg : Config) (nums : list Z) :
  0 <= (calcRows cfg nums).1.1 /\ 0 <= (calcRows cfg nums).1.2.
Proof.
  unfold calcRows.
  destruct (match nums with
            | [] => (DefaultLinesBefore cfg, DefaultLinesAfter cfg, true)
            | [n] =>
                if 0 <? n
                then let after := quot (sub n 1) 2 in
                     (sub (sub n after) 1, after, true)
                else (0, 0, false)
            | b :: a :: _ => (b, a, true)
            end) as [[before after] withSource].
  cbn. rewrite !clamp_max. lia.
Qed.

(** X12. The capacity that [sprint] computes is enough. With [before] and
    [after] as [calcRows] gives them (not negative), the rows that the loop
    of [sprint] returns, the message and the blank row included, number at
    most [(before+after+3)*len(frames)+2] with source and [len(frames)+1]
    without; so when that number is an [int], they number at most the
    capacity asked of [make]. *)
Theorem frameLoop_capacity (fuel : nat) (cfg : Config) (nums : list Z)
    (colorized : bool) (msg : string) (frames : list Frame) (w w' : World)
    (rows' : list string) :
  (calcRows cfg nums).1.1 <= int_max ->
  (calcRows cfg nums).1.2 <= int_max ->
  frameLoop fuel cfg (len frames) (calcRows cfg nums).1.1
    (calcRows cfg nums).1.2 (calcRows cfg nums).2 colorized frames 0 0
    (if (calcRows cfg nums).2 then [msg] ++ [""] else [msg]) w
  = Ret (rows', w') ->
  len rows'
  <= (if (calcRows cfg nums).2
      then ((calcRows cfg nums).1.1 + (calcRows cfg nums).1.2 + 3)
           * len frames + 2
      else len frames + 1)
  /\ (((calcRows cfg nums).1.1 + (calcRows cfg nums).1.2 + 3) * len frames + 2
      <= int_max ->
      len rows' <= expectedRows cfg nums frames).
Proof.
  intros Hb Ha Hloop. pose proof (calcRows_clamped cfg nums) as [Hb0 Ha0].
  pose proof (len_nonneg frames) as Hnn.
  unfold expectedRows.
  destruct (calcRows cfg nums) as [[before after] withSource].
  cbn [fst snd] in *.
  apply frameLoop_rows_bound in Hloop; [|lia|lia].
  assert (Hbound : len rows'
                   <= (if withSource
                       then (before + after + 3) * len frames + 2
                       else len frames + 1)).
  { destruct withSource; [rewrite len_app in Hloop|];
      change (len [msg]) with 1 in Hloop; [change (len [""]) with 1 in Hloop|];
      lia. }
  split; [exact Hbound|]. intros Hfit.
  destruct withSource.
  - unfold add, mul.
    rewrite (wrap_add_l (before + after) 3), wrap_mul_l, wrap_add_l.
    rewrite wrap_representable
      by (unfold representable, int_min, int_max in *; nia).
    exact Hbound.
  - rewrite add_representable
      by (unfold representable, int_min, int_max in *; nia).
    exact Hbound.
Qed.

End RowCount.

Lemma frameLoop_capacity_witness :
  exists rows' w',
    @frameLoop ansi 4 defaults 1 1 1 true false [frame_a 5] 0 0 ["boom"; ""]
      (empty_world one_file) = Ret (rows', w')
    /\ len rows' <= 7.
Proof.
  destruct (@frameLoop ansi 4 defaults 1 1 1 true false [frame_a 5] 0 0
              ["boom"; ""] (empty_world one_file)) as [[rows' w']| |] eqn:Hloop;
    [|discriminate Hloop|discriminate Hloop].
  exists rows', w'. split; [reflexivity|].
  destruct (@frameLoop_capacity ansi 4 defaults [3] false "boom" [frame_a 5]
              (empty_world one_file) w' rows') as [Hbound _].
  - vm_compute. discriminate.
  - vm_compute. discriminate.
  - exact Hloop.
  - exact Hbound.
Defined.

(** ** [Print], [PrintSource] and [PrintSourceColor] *)

Section PrintProofs.

Context `{Palette}.

(** X13. What the printing functions write. For the nil error each of the
    three writes a single newline, and for an error without a stack trace
    its message and a newline, after what the output held; for an error
    with a stack trace of fewer frames than the largest [int], [Print]
    writes the message and the display strings of the selected frames, one
    per line. None of these reads a file or changes the cache. *)
Theorem Print_output (fuel : nat) (cfg : Config) (nums : list Z)
    (msg : string) (frames : list Frame) (w : World) (out : string) :
  len frames < int_max ->
  (Print fuel cfg None w out = Ret (out +:+ nl, w)
   /\ PrintSource fuel cfg None nums w out = Ret (out +:+ nl, w)
   /\ PrintSourceColor fuel cfg None nums w out = Ret (out +:+ nl, w))
  /\ (Print fuel cfg (Some (PlainError msg)) w out
      = Ret (out +:+ msg +:+ nl, w)
      /\ PrintSource fuel cfg (Some (PlainError msg)) nums w out
         = Ret (out +:+ msg +:+ nl, w)
      /\ PrintSourceColor fuel cfg (Some (PlainError msg)) nums w out
         = Ret (out +:+ msg +:+ nl, w))
  /\ Print fuel cfg (Some (TracedError msg frames)) w out
     = Ret (out +:+ Join (msg :: (Display <$> selectFrames cfg frames))
            +:+ nl, w).
Proof.
  intros Hlen. pose proof (len_nonneg frames).
  split; [repeat split|]. split; [repeat split|].
  unfold Print, Sprint, sprint. cbn [calcRows Z.ltb Z.compare clamp].
  rewrite add_representable
    by (unfold representable, int_min, int_max in *; lia).
  destruct (Z.ltb_spec (len frames + 1) 0); [lia|].
  rewrite frameLoop_select by lia.
  rewrite renderFrames_headers. reflexivity.
Qed.

End PrintProofs.

Lemma Print_output_witness :
  @Print ansi 0 defaults (Some (TracedError "boom" [frame_a 5]))
    (empty_world one_file) "earlier"
  = Ret ("earlier" +:+ "boom" +:+ nl +:+ "main.foo (a.go:5)" +:+ nl,
         empty_world one_file).
Proof.
  destruct (@Print_output ansi 0 defaults [] "boom" [frame_a 5]
              (empty_world one_file) "earlier") as (_ & _ & Hp);
    [vm_compute; reflexivity|].
  rewrite Hp. reflexivity.
Defined.

(** ** A cached file is not read again *)

Section Cached.

Context `{Palette}.

Lemma sourceRows_cached fuel rows frame before after colorized w files :
  is_Some (cache w !! Path frame) ->
  sourceRows fuel rows frame before after colorized (with_fs files w)
  = withWorld (with_fs files)
      (sourceRows fuel rows frame before after colorized w)
  /\ (forall rows' w',
        sourceRows fuel rows frame before after colorized w = Ret (rows', w')
        -> w' = w).
Proof.
  intros [lines Hc]. unfold sourceRows.
  rewrite (readLines_hit (Path frame) lines w Hc).
  rewrite (readLines_hit (Path frame) lines (with_fs files w) Hc).
  destruct (len lines <? Line frame).
  - split; [reflexivity|]. intros rows' w' [= _ <-]. reflexivity.
  - destruct (sourceLoop fuel lines frame colorized _ _ rows); cbn;
      (split; [reflexivity|]); intros rows' w'; [|discriminate|discriminate].
    intros [= _ <-]. reflexivity.
Qed.

Lemma frameLoop_cached fuel cfg total before after withSource colorized files
    (frames : list Frame) :
  forall i n rows w,
    Forall (fun frame => is_Some (cache w !! Path frame)) frames ->
    frameLoop fuel cfg total before after withSource colorized frames
      i n rows (with_fs files w)
    = withWorld (with_fs files)
        (frameLoop fuel cfg total before after withSource colorized frames
           i n rows w)
    /\ (forall rows' w',
          frameLoop fuel cfg total before after withSource colorized frames
            i n rows w = Ret (rows', w')
          -> w' = w).
Proof.
  induction frames as [|frame frames IH]; intros i n rows w Hall;
    cbn [frameLoop].
  - split; [reflexivity|]. intros rows' w' [= _ <-]. reflexivity.
  - apply Forall_cons in Hall as [Hframe Hall].
    destruct (add i 1 <=? DefaultIgnoreFirstFrames cfg); [apply IH, Hall|].
    destruct withSource.
    + destruct (sourceRows_cached fuel
                  (rows ++ [if colorized then bold (Display frame)
                            else Display frame])
                  frame before after colorized w files Hframe) as [Hsrc Hsame].
      rewrite Hsrc.
      destruct (sourceRows fuel _ frame before after colorized w)
        as [[rows1 w1]| |]; cbn;
        [|split; [reflexivity | discriminate]
         |split; [reflexivity | discriminate]].
      rewrite (Hsame rows1 w1 eq_refl).
      destruct (_ && _);
        [split; [reflexivity|]; intros rows' w' [= _ <-]; reflexivity|].
      destruct (_ && _);
        [split; [reflexivity|]; intros rows' w' [= _ <-]; reflexivity|].
      apply IH, Hall.
    + cbn.
      destruct (_ && _);
        [split; [reflexivity|]; intros rows' w' [= _ <-]; reflexivity|].
      destruct (_ && _);
        [split; [reflexivity|]; intros rows' w' [= _ <-]; reflexivity|].
      apply IH, Hall.
Qed.

(** X14. Once the files of all the frames of a trace are cached, [sprint]
    no longer looks at the file system: it returns the same string whatever
    the files have become, even when they are gone, and it leaves the world
    as it was, with no read. *)
Theorem sprint_cached (fuel : nat) (cfg : Config) (msg : string)
    (frames : list Frame) (nums : list Z) (colorized : bool) (w : World)
    (files : string -> option string) :
  Forall (fun frame => is_Some (cache w !! Path frame)) frames ->
  sprint fuel cfg (Some (TracedError msg frames)) nums colorized
    (with_fs files w)
  = withWorld (with_fs files)
      (sprint fuel cfg (Some (TracedError msg frames)) nums colorized w)
  /\ (forall s w',
        sprint fuel cfg (Some (TracedError msg frames)) nums colorized w
        = Ret (s, w')
        -> w' = w).
Proof.
  intros Hall. unfold sprint.
  destruct (calcRows cfg nums) as [[before after] withSource].
  destruct (_ <? 0); [split; [reflexivity | discriminate]|].
  destruct (frameLoop_cached fuel cfg (len frames) before after withSource
              colorized files frames 0 0
              (if withSource then [msg] ++ [""] else [msg]) w Hall)
    as [Hloop Hsame].
  rewrite Hloop.
  destruct (frameLoop fuel cfg (len frames) before after withSource colorized
              frames 0 0 _ w) as [[rows1 w1]| |]; cbn;
    [|split; [reflexivity | discriminate]
     |split; [reflexivity | discriminate]].
  split; [reflexivity|]. intros s w' [= _ <-]. apply (Hsame rows1 w1 eq_refl).
Qed.

End Cached.

Lemma sprint_cached_witness :
  rowsOf (@sourceRows ansi 4 [] (frame_a 5) 1 1 false
            (with_fs (fun _ => None)
               (snd (readLines "a.go" (empty_world one_file)))))
  = Some ["4" +:+ tb +:+ "l4"; "5" +:+ tb +:+ "l5"; "6" +:+ tb +:+ "l6"; ""]
  /\ exists s,
       @SprintSource ansi 4 defaults (Some (TracedError "boom" [frame_a 5])) [3]
         (with_fs (fun _ => None)
            (snd (readLines "a.go" (empty_world one_file))))
       = Ret (s, with_fs (fun _ => None)
                   (snd (readLines "a.go" (empty_world one_file)))).
Proof.
  split; [reflexivity|].
  destruct (@sprint_cached ansi 4 defaults "boom" [frame_a 5] [3] false
              (snd (readLines "a.go" (empty_world one_file)))
              (fun _ => None)) as [Heq _].
  - constructor; [|constructor]. eexists. cbn. apply lookup_insert_eq.
  - unfold SprintSource. rewrite Heq.
    destruct (@sprint ansi 4 defaults (Some (TracedError "boom" [frame_a 5]))
                [3] false (snd (readLines "a.go" (empty_world one_file))))
      as [[s w']| |] eqn:Hs; [|discriminate Hs|discriminate Hs].
    destruct (@sprint_cached ansi 4 defaults "boom" [frame_a 5] [3] false
                (snd (readLines "a.go" (empty_world one_file)))
                (fun _ => None)) as [_ Hsame].
    + constructor; [|constructor]. eexists. cbn. apply lookup_insert_eq.
    + rewrite (Hsame s w' Hs). exists s. reflexivity.
Defined.

(** ** When [sourceRows] returns *)

Section Termination.

Context `{Palette}.

Lemma sourceLoop_returns (lines : list string) (frame : Frame)
    (colorized : bool) (end_ : Z) :
  end_ < int_max ->
  forall (n : nat) (fuel : nat) (i : Z) (rows : list string),
    n = Z.to_nat (end_ - i + 1) ->
    (n < fuel)%nat ->
    int_min <= i ->
    exists rows', sourceLoop fuel lines frame colorized end_ i rows = Ret rows'.
Proof.
  intros Hend.
  induction n as [|n IH]; intros fuel i rows Hn Hfuel Hi;
    (destruct fuel as [|fuel]; [lia|]); cbn [sourceLoop].
  - destruct (Z.leb_spec i end_); [lia|]. eauto.
  - destruct (Z.leb_spec i end_); [|lia].
    rewrite (add_representable i 1) by (unfold representable; lia).
    destruct ((i <? 0) || (len lines <=? i)) eqn:Hout.
    + apply IH; lia.
    + apply orb_false_iff in Hout as [Hneg Hlen].
      apply Z.ltb_ge in Hneg. apply Z.leb_gt in Hlen.
      destruct (lookup_lt_is_Some_2 lines (Z.to_nat i)) as [line Hline];
        [unfold len in *; lia|].
      rewrite Hline. apply IH; lia.
Qed.

(** X15. [sourceRows] returns, given enough fuel, in every case but one:
    the file of the frame resolves and has at least [frame.Line] lines, and
    the end [frame.Line-1+after] of the window, in [int] arithmetic, is the
    largest [int]. In that case the loop condition [i <= end] never fails
    and [sourceRows] does not return, whatever the fuel. *)
Theorem sourceRows_returns_iff (rows : list string) (frame : Frame)
    (before after : Z) (colorized : bool) (w : World) :
  (exists fuel rows' w',
     sourceRows fuel rows frame before after colorized w = Ret (rows', w'))
  <-> ~ (exists lines w1,
           readLines (Path frame) w = (inl lines, w1)
           /\ Line frame <= len lines
           /\ add (sub (Line frame) 1) after = int_max).
Proof.
  split.
  - intros (fuel & rows' & w' & Hret) (lines & w1 & Hr & Hle & Hend).
    rewrite (sourceRows_loop _ _ _ _ _ _ _ _ _ Hr Hle), Hend in Hret.
    rewrite sourceLoop_diverges in Hret by apply representable_wrap.
    discriminate.
  - intros Hnot.
    destruct (readLines (Path frame) w) as [[lines|err] w1] eqn:Hr.
    + destruct (Z_lt_le_dec (len lines) (Line frame)) as [Hlt|Hle].
      * exists 0%nat. eexists _, _.
        apply (sourceRows_short _ _ _ _ _ _ _ _ _ Hr Hlt).
      * pose proof (representable_wrap (sub (Line frame) 1 + after)) as Hre.
        fold (add (sub (Line frame) 1) after) in Hre.
        assert (Hend : add (sub (Line frame) 1) after < int_max).
        { destruct (Z.eq_dec (add (sub (Line frame) 1) after) int_max)
            as [Heq|Hne]; [|unfold representable in Hre; lia].
          exfalso. apply Hnot. eauto. }
        destruct (sourceLoop_returns lines frame colorized _ Hend _
                    (S (Z.to_nat (add (sub (Line frame) 1) after
                                  - sub (sub (Line frame) 1) before + 1)))
                    (sub (sub (Line frame) 1) before) rows eq_refl)
          as [rows' Hloop]; [lia | apply representable_wrap |].
        eexists _, _, _.
        rewrite (sourceRows_loop _ _ _ _ _ _ _ _ _ Hr Hle), Hloop.
        reflexivity.
    + exists 0%nat. eexists _, _.
      apply (sourceRows_unreadable _ _ _ _ _ _ _ _ _ Hr).
Qed.

End Termination.
